(** * s5cmd [sync]: the planning engine of [command/sync.go]

    A shallow embedding of the sync command: the merge-diff of the two
    listings ([compareObjects]), the skip filter ([shouldSkipObject]), the
    destination resolver ([generateDestinationURL]), the plan emitter
    ([planRun]), the listing step ([getSourceAndDestinationObjects]) and the
    error aggregation loop of [Sync.Run].

    Go strings are byte strings: they are [string] here, compared bytewise
    as Go's [<], [==] and [>] do.  Slices are lists.  Output (the command
    pipe, the log, standard output) is an explicit list of events threaded
    through a small writer monad.  Packages of the repository that the
    command only calls ([storage/url], [storage], [error], the command
    generator) are interfaces: type classes whose methods are the calls
    [sync.go] makes. *)

From Stdlib Require Import String Ascii List Bool Arith NArith ZArith Lia.
From Stdlib Require Import Permutation Sorted Morphisms RelationClasses.
Import ListNotations.

Local Open Scope string_scope.
Local Open Scope list_scope.

Set Implicit Arguments.

(** ** Go's standard library, as far as [sync.go] uses it *)

(** Go's comparison operators on strings: bytewise lexicographic. *)
Module gostring.

Definition lt (a b : string) : bool := String.ltb a b.
Definition gt (a b : string) : bool := String.ltb b a.
Definition eq (a b : string) : bool := String.eqb a b.

End gostring.

Module strings.

(** [strings.Contains(s, substr)]: [substr] occurs somewhere in [s]. *)
Fixpoint Contains (s substr : string) : bool :=
  String.prefix substr s ||
  match s with
  | EmptyString => false
  | String _ rest => Contains rest substr
  end.

(** [strings.HasSuffix(s, suffix)]. *)
Definition HasSuffix (s suffix : string) : bool :=
  let n := String.length s in
  let m := String.length suffix in
  Nat.leb m n && String.eqb (String.substring (n - m) m s) suffix.

(** [strings.ReplaceAll(s, old, new)] for a one-byte [old] and [new],
    which is how [filepath.ToSlash] calls it. *)
Fixpoint ReplaceAll (s : string) (old new : ascii) : string :=
  match s with
  | EmptyString => EmptyString
  | String c rest =>
      String (if Ascii.eqb c old then new else c) (ReplaceAll rest old new)
  end.

End strings.

Module filepath.

(** [filepath.ToSlash(path)]; [Separator] is the constant of the host
    platform: ["/"] on Unix, ["\"] on Windows.

    func ToSlash(path string) string {
      if Separator == '/' { return path }
      return strings.ReplaceAll(path, string(Separator), "/")
    } *)
Definition ToSlash (Separator : ascii) (path : string) : string :=
  if Ascii.eqb Separator "/" then path
  else strings.ReplaceAll path Separator "/".

End filepath.

Module sort.

Section SliceStable.
Variable A : Type.
Variable less : A -> A -> bool.

(** Put [x] in front of the first element that is not less than [x]:
    [x] stays before the elements it compares equal to. *)
Fixpoint insert (x : A) (l : list A) : list A :=
  match l with
  | [] => [x]
  | y :: l' => if less y x then y :: insert x l' else x :: y :: l'
  end.

(** [sort.SliceStable(slice, less)]: the slice sorted by [less], equal
    elements keeping their original order.  The order of the result is
    fixed by that contract; the stable insertion sort computes it. *)
Fixpoint SliceStable (l : list A) : list A :=
  match l with
  | [] => []
  | x :: l' => insert x (SliceStable l')
  end.
End SliceStable.

End sort.

(** ** Package [storage/url] *)

Module url.

(** The methods of [*url.URL] that [sync.go] calls.  [Clone] and [Join]
    return a new location; [Relative] is the path relative to the listed
    root, in the host's notation. *)
Class Ops (URL : Type) : Type := {
  Base : URL -> string;
  Relative : URL -> string;
  IsRemote : URL -> bool;
  IsPrefix : URL -> bool;
  IsBucket : URL -> bool;
  Join : URL -> string -> URL;
  Clone : URL -> URL;
}.

End url.

(** ** Go's [error] values and package [error] *)

Module errorpkg.

(** Modelled from the spec: the [error] package of the repository is not
    among the sources.  An error is its text ([err.Error()]) and whether it
    is a "cancellation-class error"; [nil] is [None]. *)
Record error : Type := { Error : string; cancelation : bool }.

Definition IsCancelation (err : option error) : bool :=
  match err with
  | Some e => cancelation e
  | None => false
  end.

End errorpkg.

Module fmt.

(** [fmt.Errorf(format, args...)], with the arguments already rendered:
    every [%v] of [format] is replaced by the next argument. *)
Fixpoint Sprintf (format : string) (args : list string) : string :=
  match format with
  | String "%" (String "v" rest) =>
      match args with
      | a :: args' => a ++ Sprintf rest args'
      | [] => "%!v(MISSING)" ++ Sprintf rest []
      end
  | String c rest => String c (Sprintf rest args)
  | EmptyString => EmptyString
  end.

Definition Errorf (format : string) (args : list string) : errorpkg.error :=
  {| errorpkg.Error := Sprintf format args; errorpkg.cancelation := false |}.

End fmt.

(** ** Package [storage] *)

Module storage.

(** [storage.ObjectType] and [storage.StorageClass] are seen by [sync.go]
    only through [IsDir()] and [IsGlacier()]. *)
Record ObjectType : Type := { IsDir : bool }.
Record StorageClass : Type := { IsGlacier : bool }.

Record Object (U : Type) : Type := {
  URL : U;
  Type_ : ObjectType;
  Err : option errorpkg.error;
  Class : StorageClass;
}.

(** [object.String()], the text that [%v] prints for an object. *)
Class Printer (U : Type) : Type := {
  Object_String : Object U -> string;
}.

End storage.

(** ** Package [command]: [sync.go] *)

Module ObjectPair.
(** type ObjectPair struct { src, dst *storage.Object } *)
Record t (U : Type) : Type := {
  src : storage.Object U;
  dst : storage.Object U;
}.
End ObjectPair.

Section CompareObjects.

Context {U : Type} `{url.Ops U}.

(** The platform's [filepath.Separator]. *)
Variable Separator : ascii.

(** The [less] closure of both sorts:
    [objs[i].URL.Relative() < objs[j].URL.Relative()]. *)
Definition lessRelative (a b : storage.Object U) : bool :=
  gostring.lt (url.Relative (storage.URL a)) (url.Relative (storage.URL b)).

(** [filepath.ToSlash(obj.URL.Relative())], the name the loop compares. *)
Definition objName (o : storage.Object U) : string :=
  filepath.ToSlash Separator (url.Relative (storage.URL o)).

(** The loop of [compareObjects].  [sourceObjects] and [destObjects] are
    the slices from [iSrc] and from [iDst] on; a cursor that the body
    decrements and the loop header increments again stays where it is. *)
Fixpoint compareLoop (sourceObjects destObjects : list (storage.Object U))
    (srcOnly dstOnly : list U) (commonObj : list (ObjectPair.t U))
    {struct sourceObjects} : list U * list U * list (ObjectPair.t U) :=
  let fix destLoop (destObjects : list (storage.Object U)) (dstOnly : list U)
      {struct destObjects} : list U * list U * list (ObjectPair.t U) :=
    match sourceObjects, destObjects with
    | [], [] => (srcOnly, dstOnly, commonObj)
    | [], dstObject :: destRest =>
        destLoop destRest (dstOnly ++ [storage.URL dstObject])
    | srcObject :: sourceRest, [] =>
        compareLoop sourceRest []
          (srcOnly ++ [storage.URL srcObject]) dstOnly commonObj
    | srcObject :: sourceRest, dstObject :: destRest =>
        let srcName := objName srcObject in
        let dstName := objName dstObject in
        if gostring.gt srcName dstName then
          destLoop destRest (dstOnly ++ [storage.URL dstObject])
        else if gostring.eq srcName dstName then
          compareLoop sourceRest destRest srcOnly dstOnly
            (commonObj ++ [{| ObjectPair.src := srcObject;
                              ObjectPair.dst := dstObject |}])
        else
          compareLoop sourceRest (dstObject :: destRest)
            (srcOnly ++ [storage.URL srcObject]) dstOnly commonObj
    end
  in destLoop destObjects dstOnly.

Definition compareObjects (sourceObjects destObjects : list (storage.Object U))
    : list U * list U * list (ObjectPair.t U) :=
  let sourceObjects := sort.SliceStable lessRelative sourceObjects in
  let destObjects := sort.SliceStable lessRelative destObjects in
  compareLoop sourceObjects destObjects [] [] [].

(** *** The same loop on its cursors

    The loop once more, statement by statement as [sync.go] has it: the two
    cursors are Go [int]s, the current objects are pointers that the body
    sets to [nil], and [break] leaves the loop.  [cursorLoop_compareLoop]
    shows that it returns what [compareLoop] returns. *)
Record Cursors : Type := {
  iSrc : Z;
  iDst : Z;
  srcOnly : list U;
  dstOnly : list U;
  commonObj : list (ObjectPair.t U);
}.

(** [objects[i]] under the guard [i < len(objects)]: [nil] past the end. *)
Definition objectAt (objects : list (storage.Object U)) (i : Z)
    : option (storage.Object U) :=
  if (i <? Z.of_nat (length objects))%Z
  then nth_error objects (Z.to_nat i)
  else None.

(** One pass through the body, and the increment of the loop header; [None]
    is [break]. *)
Definition cursorStep (sourceObjects destObjects : list (storage.Object U))
    (st : Cursors) : option Cursors :=
  let srcObject := objectAt sourceObjects (iSrc st) in
  let dstObject := objectAt destObjects (iDst st) in
  match srcObject, dstObject with
  | None, None => None
  | _, _ =>
      let '(srcObject, dstObject, iSrc', iDst', commonObj') :=
        match srcObject, dstObject with
        | Some s, Some d =>
            if gostring.gt (objName s) (objName d) then
              (None, dstObject, (iSrc st - 1)%Z, iDst st, commonObj st)
            else if gostring.eq (objName s) (objName d) then
              (srcObject, dstObject, iSrc st, iDst st,
               commonObj st ++ [{| ObjectPair.src := s; ObjectPair.dst := d |}])
            else
              (srcObject, None, iSrc st, (iDst st - 1)%Z, commonObj st)
        | _, _ => (srcObject, dstObject, iSrc st, iDst st, commonObj st)
        end in
      let '(srcOnly', dstOnly') :=
        match srcObject, dstObject with
        | None, None => (srcOnly st, dstOnly st)
        | None, Some d => (srcOnly st, dstOnly st ++ [storage.URL d])
        | Some s, None => (srcOnly st ++ [storage.URL s], dstOnly st)
        | Some _, Some _ => (srcOnly st, dstOnly st)
        end in
      Some {| iSrc := (iSrc' + 1)%Z; iDst := (iDst' + 1)%Z;
              srcOnly := srcOnly'; dstOnly := dstOnly';
              commonObj := commonObj' |}
  end.

(** The loop, for at most [fuel] passes: [None] when they do not suffice. *)
Fixpoint cursorLoop (fuel : nat)
    (sourceObjects destObjects : list (storage.Object U)) (st : Cursors)
    : option (list U * list U * list (ObjectPair.t U)) :=
  match fuel with
  | O => None
  | S fuel' =>
      match cursorStep sourceObjects destObjects st with
      | None => Some (srcOnly st, dstOnly st, commonObj st)
      | Some st' => cursorLoop fuel' sourceObjects destObjects st'
      end
  end.

End CompareObjects.

(** ** Output: the command pipe, the log and standard output *)

Module out.

(** What the command makes visible, in the order it happens. *)
Inductive Event (U : Type) : Type :=
| printError (fullCommand op : string) (err : errorpkg.error)
| printDebug (op : string) (err : errorpkg.error) (urls : list U)
| Fprintln (command : string)       (* a line written to the pipe [w] *)
| Close                             (* [w.Close()] *)
| Println (text : string)           (* standard output *)
| Printf (format : string) (args : list string).

Arguments Close {U}.
Arguments Println {U} text.
Arguments Printf {U} format args.
Arguments Fprintln {U} command.
Arguments printError {U} fullCommand op err.

(** A computation that returns [A] and appends to the output. *)
Definition M (U A : Type) : Type := A * list (Event U).

Definition ret {U A} (a : A) : M U A := (a, []).

Definition bind {U A B} (m : M U A) (k : A -> M U B) : M U B :=
  let '(a, w1) := m in
  let '(b, w2) := k a in
  (b, w1 ++ w2).

Definition tell {U} (e : Event U) : M U unit := (tt, [e]).

Definition value {U A} (m : M U A) : A := fst m.
Definition events {U A} (m : M U A) : list (Event U) := snd m.

(** The lines that reached the pipe. *)
Fixpoint written {U} (w : list (Event U)) : list string :=
  match w with
  | [] => []
  | Fprintln command :: w' => command :: written w'
  | _ :: w' => written w'
  end.

(** [for _, x := range xs { body }]. *)
Fixpoint forEach {U A} (xs : list A) (body : A -> M U unit) : M U unit :=
  match xs with
  | [] => ret tt
  | x :: xs' => bind (body x) (fun _ => forEach xs' body)
  end.

End out.

Notation "x <- m ;; k" := (out.bind m (fun x => k))
  (at level 61, m at next level, right associativity).
Notation "m ;;; k" := (out.bind m (fun _ => k))
  (at level 61, right associativity).

(** ** Package [cli] (urfave/cli) *)

Module cli.

(** A parsed command line: the positional arguments, the command's name and
    the flag values. *)
Record Context : Type := {
  Args : list string;
  Command_Name : string;
  Bool : string -> bool;
  String : string -> string;
}.

(** [c.Args().Get(n)]: the empty string when there is no such argument. *)
Definition Args_Get (c : Context) (n : nat) : string := nth n (Args c) "".

End cli.

(** ** Package [multierror] (hashicorp/go-multierror) *)

Module multierror.

(** A Go [error] that may be a [*multierror.Error] is the list of the
    errors it wraps: [nil] is the empty list, a plain error a singleton.
    [Append] flattens. *)
Definition Append (err errs : list errorpkg.error) : list errorpkg.error :=
  err ++ errs.

Definition ErrorOrNil (e : list errorpkg.error)
    : option (list errorpkg.error) :=
  match e with
  | [] => None
  | _ => Some e
  end.

End multierror.

(** ** [Sync] *)

Module Sync.

(** type Sync struct: the operation's flags and state. *)
Record t (StorageOpts : Type) : Type := {
  src : string;
  dst : string;
  op : string;
  fullCommand : string;
  delete : bool;
  sizeOnly : bool;
  storageOpts : StorageOpts;
  followSymlinks : bool;
  storageClass : string;
  raw : bool;
  srcRegion : string;
  dstRegion : string;
}.

End Sync.

(** A flag value of the [map[string]interface{}] handed to the command
    generator. *)
Inductive FlagValue : Type :=
| FlagBool (b : bool)
| FlagString (s : string).

(** type SyncStrategy interface {
      ShouldSync(srcObject, dstObject *storage.Object) error } *)
Record SyncStrategy (U : Type) : Type := {
  ShouldSync : storage.Object U -> storage.Object U -> option errorpkg.error;
}.

(** What [sync.go] calls outside of itself and does not define: the rest of
    the repository, the storage clients, and [strings.TrimSpace] of Go's
    library; and what the scheduler decides.  A Go result [(v, err)] is
    [inl v] or [inr err]; a channel of objects is the list of what it
    delivers. *)
Class Externals (U Client StorageOpts : Type) : Type := {
  commandFromContext : cli.Context -> string;
  NewStorageOpts : cli.Context -> StorageOpts;
  (* url.New(s, url.WithRaw(raw)) *)
  url_New : string -> bool -> U + errorpkg.error;
  (* storage.NewClient(ctx, url, opts) *)
  NewClient : U -> StorageOpts -> Client + errorpkg.error;
  (* client.List(ctx, url, followSymlinks) *)
  List : Client -> U -> bool -> list (storage.Object U);
  generateCommand :
    cli.Context -> string -> list (string * FlagValue) -> list U ->
    string + errorpkg.error;
  fdlimitWarning : string;
  (* strings.TrimSpace *)
  TrimSpace : string -> string;
  (* scheduling: of the objects that the channel of a listing goroutine
     delivers, how many the goroutine has handled when the function that
     started it returns without waiting for it *)
  handledAtReturn : list (storage.Object U) -> nat;
}.

Section Command.

Context {U Client StorageOpts : Type}.
Context `{url.Ops U} `{storage.Printer U} `{Externals U Client StorageOpts}.

(** NewSync creates Sync from cli.Context *)
Definition NewSync (c : cli.Context) : Sync.t StorageOpts :=
  {| Sync.src := cli.Args_Get c 0;
     Sync.dst := cli.Args_Get c 1;
     Sync.op := cli.Command_Name c;
     Sync.fullCommand := commandFromContext c;
     Sync.delete := cli.Bool c "delete";
     Sync.sizeOnly := cli.Bool c "size-only";
     Sync.followSymlinks := negb (cli.Bool c "no-follow-symlinks");
     Sync.storageClass := cli.String c "storage-class";
     Sync.raw := cli.Bool c "raw";
     Sync.srcRegion := cli.String c "source-region";
     Sync.dstRegion := cli.String c "destination-region";
     Sync.storageOpts := NewStorageOpts c |}.

(** generateDestinationURL generates destination url for given
    source url if it would have been in destination. *)
Definition generateDestinationURL (srcurl dsturl : U) (isBatch : bool) : U :=
  let objname := url.Base srcurl in
  let objname := if isBatch then url.Relative srcurl else objname in
  if url.IsRemote dsturl then
    if url.IsPrefix dsturl || url.IsBucket dsturl then
      url.Join dsturl objname
    else
      url.Clone dsturl
  else
    url.Join dsturl objname.

(** shouldSkipObject checks is object should be skipped. *)
Definition shouldSkipObject (s : Sync.t StorageOpts) (object : storage.Object U)
    (verbose : bool) : out.M U bool :=
  if storage.IsDir (storage.Type_ object)
     || errorpkg.IsCancelation (storage.Err object)
  then out.ret true
  else
    match storage.Err object with
    | Some err =>
        (if verbose
         then out.tell (out.printError (Sync.fullCommand s) (Sync.op s) err)
         else out.ret tt) ;;;
        out.ret true
    | None =>
        if storage.IsGlacier (storage.Class object) then
          (if verbose then
             let err := fmt.Errorf "object '%v' is on Glacier storage"
                          [storage.Object_String object] in
             out.tell (out.printError (Sync.fullCommand s) (Sync.op s) err)
           else out.ret tt) ;;;
          out.ret true
        else out.ret false
    end.

(** [for object := range channel { if s.shouldSkipObject(object, verbose)
    { continue }; objects = append(objects, object) }] *)
Fixpoint collectObjects (s : Sync.t StorageOpts) (verbose : bool)
    (channel : list (storage.Object U)) (objects : list (storage.Object U))
    : out.M U (list (storage.Object U)) :=
  match channel with
  | [] => out.ret objects
  | object :: rest =>
      skip <- shouldSkipObject s object verbose ;;
      if skip then collectObjects s verbose rest objects
      else collectObjects s verbose rest (objects ++ [object])
  end.

(** add * to end of destination string, to get all objects recursively. *)
Definition destinationURLPath (s : Sync.t StorageOpts) : string :=
  if strings.HasSuffix (Sync.dst s) "/"
  then (Sync.dst s ++ "*")%string
  else (Sync.dst s ++ "/*")%string.

(** getSourceAndDestinationObjects returns source and destination
    objects from given urls.  The two listings are goroutines that fill
    slices of their own; [wg.Wait()] joins them before the objects are
    returned.  The source one is started before the pattern of the
    destination listing is parsed: when that fails, the function returns
    without waiting, and its output is what the source goroutine has
    reported of the first [handledAtReturn] objects of its channel. *)
Definition getSourceAndDestinationObjects (s : Sync.t StorageOpts)
    (srcurl dsturl : U)
    : out.M U (list (storage.Object U) * list (storage.Object U)
               + errorpkg.error) :=
  match NewClient srcurl (Sync.storageOpts s) with
  | inr err => out.ret (inr err)
  | inl sourceClient =>
  match NewClient dsturl (Sync.storageOpts s) with
  | inr err => out.ret (inr err)
  | inl destClient =>
      (* get source objects. *)
      let srcObjectChannel :=
        List sourceClient srcurl (Sync.followSymlinks s) in
      match url_New (destinationURLPath s) false with
      | inr err =>
          collectObjects s true
            (firstn (handledAtReturn srcObjectChannel) srcObjectChannel) [] ;;;
          out.ret (inr err)
      | inl destObjectsURL =>
          sourceObjects <- collectObjects s true srcObjectChannel [] ;;
          (* get destination objects. *)
          destObjects <-
            collectObjects s false (List destClient destObjectsURL false) [] ;;
          (* wg.Wait() *)
          out.ret (inl (sourceObjects, destObjects))
      end
  end
  end.

(** The flags every generated command starts from:
    [defaultFlags := map[string]interface{}{"raw": true}]. *)
Definition defaultFlags : list (string * FlagValue) :=
  [("raw", FlagBool true)].

(** Body of the loop over [onlySource]. *)
Definition planOnlySource (s : Sync.t StorageOpts) (c : cli.Context)
    (dsturl : U) (isBatch : bool) (srcurl : U) : out.M U unit :=
  let curDestURL := generateDestinationURL srcurl dsturl isBatch in
  match generateCommand c "cp" defaultFlags [srcurl; curDestURL] with
  | inr err => out.tell (out.printDebug (Sync.op s) err [srcurl; curDestURL])
  | inl command => out.tell (out.Fprintln command)
  end.

(** Body of the loop over [common]. *)
Definition planCommon (s : Sync.t StorageOpts) (c : cli.Context)
    (strategy : SyncStrategy U) (commonObject : ObjectPair.t U)
    : out.M U unit :=
  let sourceObject := ObjectPair.src commonObject in
  let destObject := ObjectPair.dst commonObject in
  let curSourceURL := storage.URL sourceObject in
  let curDestURL := storage.URL destObject in
  (* check if object should be copied. *)
  match ShouldSync strategy sourceObject destObject with
  | Some err =>
      out.tell (out.printDebug (Sync.op s) err [curSourceURL; curDestURL])
  | None =>
      match generateCommand c "cp" defaultFlags [curSourceURL; curDestURL] with
      | inr err =>
          out.tell (out.printDebug (Sync.op s) err [curSourceURL; curDestURL])
      | inl command => out.tell (out.Fprintln command)
      end
  end.

(** The last step, over the whole of [onlyDest]. *)
Definition planOnlyDest (s : Sync.t StorageOpts) (c : cli.Context)
    (onlyDest : list U) : out.M U unit :=
  if Sync.delete s && (0 <? length onlyDest)%nat then
    match generateCommand c "rm" defaultFlags onlyDest with
    | inr err => out.tell (out.printDebug (Sync.op s) err onlyDest)
    | inl command => out.tell (out.Fprintln command)
    end
  else out.ret tt.

(** planRun prepares the commands and writes them to writer 'w'. *)
Definition planRun (s : Sync.t StorageOpts) (c : cli.Context)
    (onlySource onlyDest : list U) (common : list (ObjectPair.t U))
    (dsturl : U) (strategy : SyncStrategy U) (isBatch : bool)
    : out.M U unit :=
  (* only in source *)
  out.forEach onlySource (planOnlySource s c dsturl isBatch) ;;;
  (* both in source and destination *)
  out.forEach common (planCommon s c strategy) ;;;
  (* only in destination *)
  planOnlyDest s c onlyDest ;;;
  (* defer w.Close() *)
  out.tell out.Close.

(** How the goroutine that drains [waiter.Err()] ends: the channel is
    closed and the loop is left, or [os.Exit(code)] ends the process. *)
Inductive Drained : Type :=
| ChannelClosed (merrorWaiter : list errorpkg.error)
| Exit (code : nat).

(** [for err := range waiter.Err() { ... }] of [Sync.Run], over the errors
    in the order the channel delivers them. *)
Fixpoint drainErrors (s : Sync.t StorageOpts) (errs : list errorpkg.error)
    (merrorWaiter : list errorpkg.error) : out.M U Drained :=
  match errs with
  | [] => out.ret (ChannelClosed merrorWaiter)
  | err :: rest =>
      if strings.Contains (errorpkg.Error err) "too many open files" then
        out.tell (out.Println (TrimSpace fdlimitWarning)) ;;;
        out.tell (out.Printf "ERROR %v\n" [errorpkg.Error err]) ;;;
        out.ret (Exit 1)
      else
        out.tell (out.printError (Sync.fullCommand s) (Sync.op s) err) ;;;
        drainErrors s rest (multierror.Append merrorWaiter [err])
  end.

(** [return multierror.Append(err, merrorWaiter).ErrorOrNil()], the last
    line of [Sync.Run]; [err] is what the command runner returned. *)
Definition runResult (err merrorWaiter : list errorpkg.error)
    : option (list errorpkg.error) :=
  multierror.ErrorOrNil (multierror.Append err merrorWaiter).

End Command.

(** ** A small implementation of the interfaces

    The examples below run the command on it. *)

Module plain.

Local Open Scope string_scope.

(** Modelled from the spec: the [storage/url] package is not among the
    sources.  A location is "tagged remote or local"; a remote one has a
    bucket and a key, a prefix has a "trailing separator", the bucket root
    has no key; the relative path is "computed against a base prefix" by
    the listing and kept with the location. *)
Record URL : Type := {
  remote : bool;
  Bucket : string;
  Path : string;
  relativePath : string;
}.

Definition Absolute (u : URL) : string :=
  if remote u then "s3://" ++ Bucket u ++ "/" ++ Path u else Path u.

(** The last element of a slash-separated path. *)
Fixpoint lastElement (path cur : string) : string :=
  match path with
  | EmptyString => cur
  | String "/" EmptyString => cur
  | String "/" rest => lastElement rest ""
  | String c rest => lastElement rest (cur ++ String c "")
  end.

Definition Base (u : URL) : string := lastElement (Path u) "".

Definition Relative (u : URL) : string :=
  if String.eqb (relativePath u) "" then Absolute u else relativePath u.

Definition IsRemote (u : URL) : bool := remote u.

Definition IsPrefix (u : URL) : bool :=
  remote u && strings.HasSuffix (Path u) "/".

Definition IsBucket (u : URL) : bool :=
  remote u && String.eqb (Path u) "".

Definition Join (u : URL) (s : string) : URL :=
  {| remote := remote u;
     Bucket := Bucket u;
     Path :=
       if remote u || String.eqb (Path u) ""
          || strings.HasSuffix (Path u) "/"
       then Path u ++ s
       else Path u ++ "/" ++ s;
     relativePath := relativePath u |}.

Definition Clone (u : URL) : URL := u.

#[global] Instance ops : url.Ops URL := {
  url.Base := Base;
  url.Relative := Relative;
  url.IsRemote := IsRemote;
  url.IsPrefix := IsPrefix;
  url.IsBucket := IsBucket;
  url.Join := Join;
  url.Clone := Clone;
}.

#[global] Instance printer : storage.Printer URL := {
  storage.Object_String o := Absolute (storage.URL o);
}.

Definition local (path rel : string) : URL :=
  {| remote := false; Bucket := ""; Path := path; relativePath := rel |}.

Definition s3 (bucket key rel : string) : URL :=
  {| remote := true; Bucket := bucket; Path := key; relativePath := rel |}.

(** A regular file without error, in the given storage class. *)
Definition file (u : URL) (glacier : bool) : storage.Object URL :=
  {| storage.URL := u;
     storage.Type_ := {| storage.IsDir := false |};
     storage.Err := None;
     storage.Class := {| storage.IsGlacier := glacier |} |}.

(** A store: its objects, each with whether it is reached through a
    symbolic link. *)
Definition Client : Type := list (storage.Object URL * bool).

Definition listStore (client : Client) (u : URL) (followSymlinks : bool)
    : list (storage.Object URL) :=
  map fst (filter (fun entry => followSymlinks || negb (snd entry)) client).

(** [bucket/key] of a remote location, split at the first slash. *)
Fixpoint splitBucket (s bucket : string) : string * string :=
  match s with
  | EmptyString => (bucket, "")
  | String "/" rest => (bucket, rest)
  | String c rest => splitBucket rest (bucket ++ String c "")
  end.

Definition New (s : string) (raw : bool) : URL + errorpkg.error :=
  if String.eqb s "" then
    inr {| errorpkg.Error := "url cannot be empty";
           errorpkg.cancelation := false |}
  else if String.prefix "s3://" s then
    let '(bucket, key) :=
      splitBucket (String.substring 5 (String.length s - 5) s) "" in
    inl (s3 bucket key "")
  else inl (local s "").

Definition renderFlag (flag : string * FlagValue) : string :=
  match snd flag with
  | FlagBool b => " --" ++ fst flag ++ "=" ++ (if b then "true" else "false")
  | FlagString v => " --" ++ fst flag ++ "=" ++ v
  end.

Definition renderCommand (c : cli.Context) (cmd : string)
    (flags : list (string * FlagValue)) (urls : list URL)
    : string + errorpkg.error :=
  inl ("s5cmd " ++ cmd ++ String.concat "" (map renderFlag flags)
       ++ String.concat "" (map (fun u => " " ++ Absolute u) urls)).

(** The store is handed over with the options: both sides list it. *)
#[global] Instance externals : Externals URL Client Client := {
  commandFromContext c := String.concat " " (cli.Command_Name c :: cli.Args c);
  NewStorageOpts _ := [];
  url_New := New;
  NewClient _ opts := inl opts;
  List := listStore;
  generateCommand := renderCommand;
  fdlimitWarning := "too many open files: raise the limit with ulimit -n";
  TrimSpace s := s;
  handledAtReturn _ := 0;
}.

(** The same, with a command generator that refuses every command. *)
Definition refusing : Externals URL Client Client := {|
  commandFromContext c := String.concat " " (cli.Command_Name c :: cli.Args c);
  NewStorageOpts _ := [];
  url_New := New;
  NewClient _ opts := inl opts;
  List := listStore;
  generateCommand _ _ _ _ :=
    inr {| errorpkg.Error := "cannot generate command";
           errorpkg.cancelation := false |};
  fdlimitWarning := "too many open files: raise the limit with ulimit -n";
  TrimSpace s := s;
  handledAtReturn _ := 0;
|}.

(** A strategy that finds every pair out of date ([nil]: sync it), and one
    that finds every pair in sync. *)
Definition alwaysSync : SyncStrategy URL :=
  {| ShouldSync _ _ := None |}.

Definition neverSync : SyncStrategy URL :=
  {| ShouldSync _ _ :=
       Some {| errorpkg.Error := "object size matches";
               errorpkg.cancelation := false |} |}.

Definition sync (delete followSymlinks : bool) (dst : string)
    (store : Client) : Sync.t Client :=
  {| Sync.src := "dir/"; Sync.dst := dst; Sync.op := "sync";
     Sync.fullCommand := "sync dir/ " ++ dst;
     Sync.delete := delete; Sync.sizeOnly := false;
     Sync.storageOpts := store;
     Sync.followSymlinks := followSymlinks;
     Sync.storageClass := ""; Sync.raw := false;
     Sync.srcRegion := ""; Sync.dstRegion := "" |}.

Definition context (noFollowSymlinks : bool) : cli.Context :=
  {| cli.Args := ["dir/"; "s3://bucket/"];
     cli.Command_Name := "sync";
     cli.Bool flag := String.eqb flag "no-follow-symlinks" && noFollowSymlinks;
     cli.String _ := "" |}.

(** The listings of the example of the specification (section 8): the
    source holds [a.txt], [b.txt] and [sub/c.txt], the destination [a.txt]
    and [old.txt]. *)
Definition src_a : storage.Object URL := file (local "dir/a.txt" "a.txt") false.
Definition src_b : storage.Object URL := file (local "dir/b.txt" "b.txt") false.
Definition src_sub_c : storage.Object URL :=
  file (local "dir/sub/c.txt" "sub/c.txt") false.
Definition dst_a : storage.Object URL :=
  file (s3 "bucket" "a.txt" "a.txt") false.
Definition dst_old : storage.Object URL :=
  file (s3 "bucket" "old.txt" "old.txt") false.

(** The separator of a Windows host, and a listing on it: a local
    directory [dir] with the file [aZ] and, in its subdirectory [a], the
    file [b]; the bucket holds [a/b].  Relative paths are in the host's
    notation. *)
Definition backslash : ascii := "\".

Definition local_aZ : storage.Object URL :=
  file (local "dir\aZ" "aZ") false.
Definition local_a_b : storage.Object URL :=
  file (local "dir\a\b" "a\b") false.
Definition remote_a_b : storage.Object URL :=
  file (s3 "bucket" "a/b" "a\b") false.

End plain.

(** ** Vocabulary of the properties *)

Section Vocabulary.

Variable A : Type.
Variable key : A -> string.

(** The [less] of a sort by [key]: [key(a) < key(b)]. *)
Definition lessBy (a b : A) : bool := gostring.lt (key a) (key b).

(** [a] may stand before [b] in a slice sorted by [key]: not
    [key(b) < key(a)]. *)
Definition inOrder (a b : A) : Prop := gostring.lt (key b) (key a) = false.

End Vocabulary.

Section DiffVocabulary.

Context {U : Type} `{url.Ops U}.

(** The key of the two sorts: [URL.Relative()] as the listing gives it. *)
Definition relativeOf (o : storage.Object U) : string :=
  url.Relative (storage.URL o).

(** The name the loop compares, of a location. *)
Definition nameOf (Separator : ascii) (u : U) : string :=
  filepath.ToSlash Separator (url.Relative u).

(** The three results of [compareObjects], as [Sync.Run] names them. *)
Definition onlySourceOf (r : list U * list U * list (ObjectPair.t U))
    : list U := fst (fst r).
Definition onlyDestOf (r : list U * list U * list (ObjectPair.t U))
    : list U := snd (fst r).
Definition commonOf (r : list U * list U * list (ObjectPair.t U))
    : list (ObjectPair.t U) := snd r.

Definition srcURL (p : ObjectPair.t U) : U := storage.URL (ObjectPair.src p).
Definition dstURL (p : ObjectPair.t U) : U := storage.URL (ObjectPair.dst p).

(** A slice in strictly ascending order of [key]. *)
Definition ascending {A : Type} (key : A -> string) (l : list A) : Prop :=
  StronglySorted (fun a b => gostring.lt (key a) (key b) = true) l.

(** What each result of the loop holds, for slices [s] and [d] in
    ascending order of the name the loop compares: a source-only location
    has no namesake in [d], a destination-only one none in [s], and a pair
    joins two namesakes. *)
Definition soundResult (Separator : ascii) (s d : list (storage.Object U))
    (r : list U * list U * list (ObjectPair.t U)) : Prop :=
  (forall u, In u (onlySourceOf r) ->
     exists o, In o s /\ storage.URL o = u
               /\ forall o', In o' d ->
                    objName Separator o' <> objName Separator o)
  /\ (forall u, In u (onlyDestOf r) ->
     exists o, In o d /\ storage.URL o = u
               /\ forall o', In o' s ->
                    objName Separator o' <> objName Separator o)
  /\ (forall p, In p (commonOf r) ->
     In (ObjectPair.src p) s /\ In (ObjectPair.dst p) d
     /\ objName Separator (ObjectPair.src p)
        = objName Separator (ObjectPair.dst p)).

End DiffVocabulary.

(** The destination resolver of the specification (section 4.4): the shape
    of a destination, and the table of results, row by row. *)
Inductive DestinationShape : Type :=
| RemotePrefixOrBucketRoot
| RemoteExactKey
| Local.

Section ResolverTable.

Context {U : Type} `{url.Ops U}.

Definition shapeOf (destinationBase : U) : DestinationShape :=
  if url.IsRemote destinationBase then
    if url.IsPrefix destinationBase || url.IsBucket destinationBase
    then RemotePrefixOrBucketRoot
    else RemoteExactKey
  else Local.

Definition resolveDestination (source destinationBase : U) (isBatch : bool)
    : U :=
  match isBatch, shapeOf destinationBase with
  | true, _ => url.Join destinationBase (url.Relative source)
  | false, RemotePrefixOrBucketRoot =>
      url.Join destinationBase (url.Base source)
  | false, RemoteExactKey => url.Clone destinationBase
  | false, Local => url.Join destinationBase (url.Base source)
  end.

End ResolverTable.

(** The error text that [Sync.Run] takes for the exhaustion of file
    descriptors. *)
Definition tooManyOpenFiles (err : errorpkg.error) : bool :=
  strings.Contains (errorpkg.Error err) "too many open files".

(** An object that the skip filter lets through: a file, without an error,
    not in the Glacier storage class. *)
Definition eligible {U : Type} (o : storage.Object U) : bool :=
  negb (storage.IsDir (storage.Type_ o))
  && negb (errorpkg.IsCancelation (storage.Err o))
  && match storage.Err o with None => true | Some _ => false end
  && negb (storage.IsGlacier (storage.Class o)).

(** ** [Sync.Run] *)

(** What [Sync.Run] calls besides: [srcurl.IsWildcard()], the [Stat] of a
    client ([obj, _ := sourceClient.Stat(ctx, srcurl)], [None] for a [nil]
    object), [NewStrategy(sizeOnly)], and the command runner
    [NewRun(c, pipeReader).Run(ctx)], which reads the lines of the pipe and
    returns its errors ([nil] is the empty list). *)
Class RunExternals (U Client : Type) : Type := {
  IsWildcard : U -> bool;
  Stat : Client -> U -> option (storage.Object U);
  NewStrategy : bool -> SyncStrategy U;
  runCommands : cli.Context -> list string -> list errorpkg.error;
}.

Section Run.

Context {U Client StorageOpts : Type}.
Context `{url.Ops U} `{storage.Printer U} `{Externals U Client StorageOpts}.
Context `{RunExternals U Client}.

(** The platform's [filepath.Separator]. *)
Variable Separator : ascii.

(** [isBatch := srcurl.IsWildcard()
     if !isBatch && !srcurl.IsRemote() {
       obj, _ := sourceClient.Stat(c.Context, srcurl)
       isBatch = obj != nil && obj.Type.IsDir() }] *)
Definition isBatchOf (sourceClient : Client) (srcurl : U) : bool :=
  let isBatch := IsWildcard srcurl in
  if negb isBatch && negb (url.IsRemote srcurl) then
    match Stat sourceClient srcurl with
    | Some obj => storage.IsDir (storage.Type_ obj)
    | None => false
    end
  else isBatch.

(** Run compares files, plans necessary s5cmd commands to execute
    and executes them in order to sync source to destination.

    The goroutine of the plan and the runner are joined by the pipe: the
    runner receives the lines that [planRun] writes.  [merrorWaiter] is what
    the goroutine that drains [waiter.Err()] ([drainErrors]) has gathered
    when the runner returns.  The result is the returned [error]: [None] for
    [nil], the list of the errors it holds otherwise.  The output is followed
    up to the return of [Run]; a source listing that the listing step has
    left running is followed no further than the step follows it. *)
Definition Run (s : Sync.t StorageOpts) (c : cli.Context)
    (merrorWaiter : list errorpkg.error)
    : out.M U (option (list errorpkg.error)) :=
  match url_New (Sync.src s) (Sync.raw s) with
  | inr err => out.ret (Some [err])
  | inl srcurl =>
  match url_New (Sync.dst s) (Sync.raw s) with
  | inr err => out.ret (Some [err])
  | inl dsturl =>
  match NewClient srcurl (Sync.storageOpts s) with
  | inr err => out.ret (Some [err])
  | inl sourceClient =>
      let isBatch := isBatchOf sourceClient srcurl in
      listed <- getSourceAndDestinationObjects s srcurl dsturl ;;
      match listed with
      | inr err =>
          out.tell (out.printError (Sync.fullCommand s) (Sync.op s) err) ;;;
          out.ret (Some [err])
      | inl (sourceObjects, destObjects) =>
          let '(onlySource, onlyDest, commonObjects) :=
            compareObjects Separator sourceObjects destObjects in
          (* create comparison strategy. *)
          let strategy := NewStrategy (Sync.sizeOnly s) in
          (* Create commands in background. *)
          let plan :=
            planRun s c onlySource onlyDest commonObjects dsturl strategy
              isBatch in
          plan ;;;
          let err := runCommands c (out.written (out.events plan)) in
          out.ret (multierror.ErrorOrNil (multierror.Append err merrorWaiter))
      end
  end
  end
  end.

End Run.

(** More of the small implementation, for [Sync.Run]. *)
Module fixture.

Local Open Scope string_scope.

(** A source with a [*] is a wildcard; a local path that ends in a slash is
    a directory; the runner succeeds on every command. *)
#[global] Instance run : RunExternals plain.URL plain.Client := {
  IsWildcard u := strings.Contains (plain.Path u) "*";
  Stat _ u :=
    if strings.HasSuffix (plain.Path u) "/" then
      Some {| storage.URL := u;
              storage.Type_ := {| storage.IsDir := true |};
              storage.Err := None;
              storage.Class := {| storage.IsGlacier := false |} |}
    else None;
  NewStrategy _ := plain.alwaysSync;
  runCommands _ _ := [];
}.

(** The small implementation without access to remote storage: no client
    for a remote location. *)
Definition offline : Externals plain.URL plain.Client plain.Client := {|
  commandFromContext c := String.concat " " (cli.Command_Name c :: cli.Args c);
  NewStorageOpts _ := [];
  url_New := plain.New;
  NewClient u opts :=
    if plain.remote u then
      inr {| errorpkg.Error := "no credentials";
             errorpkg.cancelation := false |}
    else inl opts;
  List := plain.listStore;
  generateCommand := plain.renderCommand;
  fdlimitWarning := "too many open files: raise the limit with ulimit -n";
  TrimSpace s := s;
  handledAtReturn _ := 0;
|}.

(** A directory, an object whose listing failed, and an object whose
    listing was cancelled. *)
Definition directory (u : plain.URL) : storage.Object plain.URL :=
  {| storage.URL := u;
     storage.Type_ := {| storage.IsDir := true |};
     storage.Err := None;
     storage.Class := {| storage.IsGlacier := false |} |}.

Definition failed (u : plain.URL) (message : string)
    : storage.Object plain.URL :=
  {| storage.URL := u;
     storage.Type_ := {| storage.IsDir := false |};
     storage.Err := Some {| errorpkg.Error := message;
                            errorpkg.cancelation := false |};
     storage.Class := {| storage.IsGlacier := false |} |}.

Definition cancelled (u : plain.URL) : storage.Object plain.URL :=
  {| storage.URL := u;
     storage.Type_ := {| storage.IsDir := false |};
     storage.Err := Some {| errorpkg.Error := "context canceled";
                            errorpkg.cancelation := true |};
     storage.Class := {| storage.IsGlacier := false |} |}.

(** A [Sync] of [src] to [dst] over a store. *)
Definition syncOf (src dst : string) (delete : bool) (store : plain.Client)
    : Sync.t plain.Client :=
  {| Sync.src := src; Sync.dst := dst; Sync.op := "sync";
     Sync.fullCommand := "sync " ++ src ++ " " ++ dst;
     Sync.delete := delete; Sync.sizeOnly := false;
     Sync.storageOpts := store;
     Sync.followSymlinks := true;
     Sync.storageClass := ""; Sync.raw := false;
     Sync.srcRegion := ""; Sync.dstRegion := "" |}.

End fixture.

(** No name is in two of the three results. *)
Definition disjointByName {U : Type} `{url.Ops U} (Separator : ascii)
    (r : list U * list U * list (ObjectPair.t U)) : Prop :=
  (forall u u', In u (onlySourceOf r) -> In u' (onlyDestOf r) ->
     nameOf Separator u <> nameOf Separator u')
  /\ (forall u p, In u (onlySourceOf r) -> In p (commonOf r) ->
     nameOf Separator u <> nameOf Separator (srcURL p)
     /\ nameOf Separator u <> nameOf Separator (dstURL p))
  /\ (forall u p, In u (onlyDestOf r) -> In p (commonOf r) ->
     nameOf Separator u <> nameOf Separator (srcURL p)
     /\ nameOf Separator u <> nameOf Separator (dstURL p)).

(** Locations in the order of a sort by relative path: no later one has a
    smaller relative path. *)
Definition byRelative {U : Type} `{url.Ops U} (l : list U) : Prop :=
  StronglySorted
    (fun u v => gostring.lt (url.Relative v) (url.Relative u) = false) l.

(** The number of delete steps of a plan: one when the delete flag is set
    and something is destination-only, none otherwise. *)
Definition deleteSteps {U StorageOpts : Type} (s : Sync.t StorageOpts)
    (onlyDest : list U) : nat :=
  if Sync.delete s then match onlyDest with [] => 0 | _ :: _ => 1 end else 0.

(** The strategy asks for the pair to be synchronized: [ShouldSync] returns
    [nil]. *)
Definition needsSync {U : Type} (strategy : SyncStrategy U)
    (p : ObjectPair.t U) : bool :=
  match ShouldSync strategy (ObjectPair.src p) (ObjectPair.dst p) with
  | None => true
  | Some _ => false
  end.

(** ** [Sync.Run] and the goroutine of the error channel together *)

(** How the process of the command ends: [Sync.Run] returns its [error], or
    [os.Exit(code)] ends it first. *)
Inductive Outcome : Type :=
| Returned (result : option (list errorpkg.error))
| Exited (code : nat).

Section RunAndAggregator.

Context {U Client StorageOpts : Type}.
Context `{url.Ops U} `{storage.Printer U} `{Externals U Client StorageOpts}.
Context `{RunExternals U Client}.

Variable Separator : ascii.

(** [delivered] is what [waiter.Err()] delivers while the process lives, in
    order; [handled] is how many of these errors the loop of the goroutine
    has been through when the command runner returns.  [Sync.Run] does not
    wait for the loop - it never receives from [errDoneCh] and never calls
    [waiter.Wait()] - so it returns with what the loop has gathered by
    then. *)
Definition runWithAggregator (s : Sync.t StorageOpts) (c : cli.Context)
    (delivered : list errorpkg.error) (handled : nat) : Outcome :=
  match out.value (drainErrors (U := U) s (firstn handled delivered) []) with
  | Exit code => Exited code
  | ChannelClosed merrorWaiter =>
      Returned (out.value (Run Separator s c merrorWaiter))
  end.

End RunAndAggregator.

(** * Properties *)

(** ** The order of Go strings *)

Section StringOrder.

Lemma ascii_compare_refl (a : ascii) : Ascii.compare a a = Eq.
Proof. unfold Ascii.compare. apply N.compare_refl. Qed.

Lemma ascii_compare_lt_trans (a b c : ascii) :
  Ascii.compare a b = Lt -> Ascii.compare b c = Lt -> Ascii.compare a c = Lt.
Proof.
  unfold Ascii.compare. rewrite !N.compare_lt_iff. apply N.lt_trans.
Qed.

Lemma compare_refl (a : string) : String.compare a a = Eq.
Proof.
  induction a as [|c a IH]; simpl; [reflexivity|].
  now rewrite ascii_compare_refl.
Qed.

Lemma compare_lt_trans (a b c : string) :
  String.compare a b = Lt -> String.compare b c = Lt ->
  String.compare a c = Lt.
Proof.
  revert b c. induction a as [|x a IH]; intros [|y b] [|z c]; simpl;
    try discriminate; auto.
  destruct (Ascii.compare x y) eqn:Hxy; try discriminate;
    destruct (Ascii.compare y z) eqn:Hyz; try discriminate; intros Hab Hbc.
  - apply Ascii.compare_eq_iff in Hxy, Hyz. subst.
    rewrite ascii_compare_refl. eauto.
  - apply Ascii.compare_eq_iff in Hxy. subst. now rewrite Hyz.
  - apply Ascii.compare_eq_iff in Hyz. subst. now rewrite Hxy.
  - now rewrite (ascii_compare_lt_trans _ _ _ Hxy Hyz).
Qed.

Lemma lt_irrefl (a : string) : gostring.lt a a = false.
Proof. unfold gostring.lt, String.ltb. now rewrite compare_refl. Qed.

Lemma lt_trans (a b c : string) :
  gostring.lt a b = true -> gostring.lt b c = true -> gostring.lt a c = true.
Proof.
  unfold gostring.lt, String.ltb.
  destruct (String.compare a b) eqn:Hab; try discriminate.
  destruct (String.compare b c) eqn:Hbc; try discriminate.
  now rewrite (compare_lt_trans _ _ _ Hab Hbc).
Qed.

Lemma lt_asym (a b : string) :
  gostring.lt a b = true -> gostring.lt b a = false.
Proof.
  intros Hab. destruct (gostring.lt b a) eqn:Hba; [|reflexivity].
  pose proof (lt_trans _ _ _ Hab Hba) as Haa.
  now rewrite lt_irrefl in Haa.
Qed.

(** Two strings that are not ordered either way are the same string. *)
Lemma lt_connected (a b : string) :
  gostring.lt a b = false -> gostring.lt b a = false -> a = b.
Proof.
  unfold gostring.lt, String.ltb. rewrite (String.compare_antisym b a).
  destruct (String.compare a b) eqn:Hab; simpl; try discriminate.
  intros _ _. now apply String.compare_eq_iff.
Qed.

(** [a <= b], as "not [b < a]", is transitive. *)
Lemma ge_false_trans (a b c : string) :
  gostring.lt b a = false -> gostring.lt c b = false ->
  gostring.lt c a = false.
Proof.
  intros Hab Hbc. destruct (gostring.lt c a) eqn:Hca; [|reflexivity].
  destruct (gostring.lt a b) eqn:Hlt.
  - now rewrite (lt_trans _ _ _ Hca Hlt) in Hbc.
  - rewrite (lt_connected _ _ Hlt Hab) in Hca. congruence.
Qed.

Lemma eq_true_iff (a b : string) : gostring.eq a b = true <-> a = b.
Proof. apply String.eqb_eq. Qed.

End StringOrder.

(** ** [sort.SliceStable] *)

Section SliceStableFacts.

Variable A : Type.
Variable key : A -> string.

Local Abbreviation less := (lessBy key).
Local Abbreviation inOrder := (inOrder key).

Lemma insert_perm (x : A) (l : list A) :
  Permutation (sort.insert less x l) (x :: l).
Proof.
  induction l as [|y l IH]; simpl; [reflexivity|].
  destruct (less y x); [|reflexivity].
  rewrite IH. apply perm_swap.
Qed.

Lemma SliceStable_perm (l : list A) :
  Permutation (sort.SliceStable less l) l.
Proof.
  induction l as [|x l IH]; simpl; [reflexivity|].
  now rewrite insert_perm, IH.
Qed.

Lemma insert_sorted (x : A) (l : list A) :
  StronglySorted inOrder l -> StronglySorted inOrder (sort.insert less x l).
Proof.
  induction 1 as [|y l Hl IH Hy]; simpl.
  - repeat constructor.
  - destruct (less y x) eqn:Hyx.
    + constructor; [exact IH|].
      rewrite Forall_forall in *. intros z Hz.
      apply (Permutation_in _ (insert_perm x l)) in Hz.
      destruct Hz as [<-|Hz]; [|now apply Hy].
      unfold inOrder. now apply lt_asym.
    + constructor; [now constructor|].
      constructor; [exact Hyx|].
      rewrite Forall_forall in *. intros z Hz.
      unfold inOrder in *. specialize (Hy z Hz).
      now apply ge_false_trans with (key y).
Qed.

Lemma SliceStable_sorted (l : list A) :
  StronglySorted inOrder (sort.SliceStable less l).
Proof.
  induction l as [|x l IH]; simpl; [constructor|].
  now apply insert_sorted.
Qed.

(** A sorted slice without two equal keys is the only sorted arrangement
    of its elements. *)
Lemma sorted_unique (l1 l2 : list A) :
  StronglySorted inOrder l1 -> StronglySorted inOrder l2 ->
  Permutation l1 l2 -> NoDup (map key l1) -> l1 = l2.
Proof.
  intros H1. revert l2.
  induction H1 as [|a l1 Hs1 IH Ha]; intros l2 H2 Hp Hnd.
  - now apply Permutation_nil in Hp.
  - destruct H2 as [|b l2 Hs2 Hb].
    + symmetry in Hp. now apply Permutation_nil in Hp.
    + assert (Hab : a = b).
      { assert (Hina : In a (b :: l2))
          by (apply (Permutation_in _ Hp); now left).
        assert (Hinb : In b (a :: l1))
          by (apply (Permutation_in _ (Permutation_sym Hp)); now left).
        destruct Hina as [->|Hina]; [reflexivity|].
        destruct Hinb as [->|Hinb]; [reflexivity|].
        rewrite Forall_forall in Ha, Hb.
        pose proof (Ha _ Hinb) as Hle1. pose proof (Hb _ Hina) as Hle2.
        unfold inOrder in *.
        assert (Hk : key a = key b) by now apply lt_connected.
        inversion Hnd as [|? ? Hnot _]; subst.
        exfalso. apply Hnot. rewrite Hk. now apply in_map. }
      subst b. f_equal. apply IH; [exact Hs2| |].
      * now apply Permutation_cons_inv in Hp.
      * now inversion Hnd.
Qed.

(** Without two equal keys, the sorted slice does not depend on the order
    the elements arrived in. *)
Lemma SliceStable_order_independent (l l' : list A) :
  Permutation l l' -> NoDup (map key l) ->
  sort.SliceStable less l' = sort.SliceStable less l.
Proof.
  intros Hp Hnd. symmetry. apply sorted_unique.
  - apply SliceStable_sorted.
  - apply SliceStable_sorted.
  - now rewrite !SliceStable_perm.
  - apply (Permutation_NoDup (l := map key l)); [|exact Hnd].
    apply Permutation_map. symmetry. apply SliceStable_perm.
Qed.

End SliceStableFacts.

(** ** [compareObjects] *)

Section CompareFacts.

Context {U : Type} `{url.Ops U}.

Variable Separator : ascii.

Lemma lessRelative_lessBy :
  lessRelative (U := U) = lessBy relativeOf.
Proof. reflexivity. Qed.

(** *** One step of the loop *)

Lemma compareLoop_nil_nil srcOnly dstOnly commonObj :
  compareLoop Separator [] [] srcOnly dstOnly commonObj
  = (srcOnly, dstOnly, commonObj).
Proof. reflexivity. Qed.

Lemma compareLoop_nil_cons d ds srcOnly dstOnly commonObj :
  compareLoop Separator [] (d :: ds) srcOnly dstOnly commonObj
  = compareLoop Separator [] ds srcOnly (dstOnly ++ [storage.URL d]) commonObj.
Proof. reflexivity. Qed.

Lemma compareLoop_cons_nil s ss srcOnly dstOnly commonObj :
  compareLoop Separator (s :: ss) [] srcOnly dstOnly commonObj
  = compareLoop Separator ss [] (srcOnly ++ [storage.URL s]) dstOnly commonObj.
Proof. reflexivity. Qed.

Lemma compareLoop_cons_cons s ss d ds srcOnly dstOnly commonObj :
  compareLoop Separator (s :: ss) (d :: ds) srcOnly dstOnly commonObj
  = if gostring.gt (objName Separator s) (objName Separator d) then
      compareLoop Separator (s :: ss) ds srcOnly
        (dstOnly ++ [storage.URL d]) commonObj
    else if gostring.eq (objName Separator s) (objName Separator d) then
      compareLoop Separator ss ds srcOnly dstOnly
        (commonObj ++ [{| ObjectPair.src := s; ObjectPair.dst := d |}])
    else
      compareLoop Separator ss (d :: ds)
        (srcOnly ++ [storage.URL s]) dstOnly commonObj.
Proof. reflexivity. Qed.

(** *** Order independence *)

Lemma compareObjects_perm
    (source source' dest dest' : list (storage.Object U)) :
  Permutation source source' -> Permutation dest dest' ->
  NoDup (map relativeOf source) -> NoDup (map relativeOf dest) ->
  compareObjects Separator source' dest' = compareObjects Separator source dest.
Proof.
  intros Hs Hd Hns Hnd. unfold compareObjects.
  rewrite lessRelative_lessBy.
  rewrite (SliceStable_order_independent relativeOf Hs Hns).
  rewrite (SliceStable_order_independent relativeOf Hd Hnd).
  reflexivity.
Qed.

(** Objects with different slash-normalized names have different relative
    paths. *)
Lemma NoDup_objName_relativeOf (l : list (storage.Object U)) :
  NoDup (map (objName Separator) l) -> NoDup (map relativeOf l).
Proof.
  intros Hn.
  apply (NoDup_map_inv (filepath.ToSlash Separator)).
  now rewrite map_map.
Qed.

End CompareFacts.

(** ** The partitions of [compareObjects] *)

Section PartitionFacts.

Context {U : Type} `{url.Ops U}.

Variable Separator : ascii.

Local Abbreviation loop := (compareLoop Separator).
Local Abbreviation name := (objName Separator).

(** What the loop has collected so far stays in front. *)
Lemma compareLoop_acc (s d : list (storage.Object U)) :
  forall srcOnly dstOnly commonObj,
    loop s d srcOnly dstOnly commonObj
    = (srcOnly ++ onlySourceOf (loop s d [] [] []),
       dstOnly ++ onlyDestOf (loop s d [] [] []),
       commonObj ++ commonOf (loop s d [] [] [])).
Proof.
  revert d. induction s as [|s0 ss IHs]; intros d;
    induction d as [|d0 ds IHd]; intros so do co.
  - rewrite !compareLoop_nil_nil. cbn. now rewrite !app_nil_r.
  - rewrite !compareLoop_nil_cons.
    rewrite (IHd so (do ++ [storage.URL d0]) co).
    rewrite (IHd [] ([] ++ [storage.URL d0]) []).
    cbn. now rewrite <- app_assoc.
  - rewrite !compareLoop_cons_nil.
    rewrite (IHs [] (so ++ [storage.URL s0]) do co).
    rewrite (IHs [] ([] ++ [storage.URL s0]) [] []).
    cbn. now rewrite <- app_assoc.
  - rewrite !compareLoop_cons_cons.
    destruct (gostring.gt (name s0) (name d0)).
    + rewrite (IHd so (do ++ [storage.URL d0]) co).
      rewrite (IHd [] ([] ++ [storage.URL d0]) []).
      cbn. now rewrite <- app_assoc.
    + destruct (gostring.eq (name s0) (name d0)).
      * rewrite (IHs ds so do (co ++ _)).
        rewrite (IHs ds [] [] ([] ++ _)).
        cbn. now rewrite <- app_assoc.
      * rewrite (IHs (d0 :: ds) (so ++ [storage.URL s0]) do co).
        rewrite (IHs (d0 :: ds) ([] ++ [storage.URL s0]) [] []).
        cbn. now rewrite <- app_assoc.
Qed.

(** The loop, case by case: every run of it is built by these six rules. *)
Lemma compareLoop_ind
    (P : list (storage.Object U) -> list (storage.Object U) ->
         list U * list U * list (ObjectPair.t U) -> Prop) :
  P [] [] ([], [], []) ->
  (forall d ds r, P [] ds r ->
     P [] (d :: ds)
       (onlySourceOf r, storage.URL d :: onlyDestOf r, commonOf r)) ->
  (forall s ss r, P ss [] r ->
     P (s :: ss) []
       (storage.URL s :: onlySourceOf r, onlyDestOf r, commonOf r)) ->
  (forall s ss d ds r,
     gostring.gt (name s) (name d) = true ->
     P (s :: ss) ds r ->
     P (s :: ss) (d :: ds)
       (onlySourceOf r, storage.URL d :: onlyDestOf r, commonOf r)) ->
  (forall s ss d ds r,
     gostring.gt (name s) (name d) = false ->
     gostring.eq (name s) (name d) = true ->
     P ss ds r ->
     P (s :: ss) (d :: ds)
       (onlySourceOf r, onlyDestOf r,
        {| ObjectPair.src := s; ObjectPair.dst := d |} :: commonOf r)) ->
  (forall s ss d ds r,
     gostring.gt (name s) (name d) = false ->
     gostring.eq (name s) (name d) = false ->
     P ss (d :: ds) r ->
     P (s :: ss) (d :: ds)
       (storage.URL s :: onlySourceOf r, onlyDestOf r, commonOf r)) ->
  forall s d, P s d (loop s d [] [] []).
Proof.
  intros Hnn Hnc Hcn Hgt Heq Hlt s.
  induction s as [|s0 ss IHs]; intros d; induction d as [|d0 ds IHd].
  - exact Hnn.
  - rewrite compareLoop_nil_cons, compareLoop_acc. now apply Hnc.
  - rewrite compareLoop_cons_nil, compareLoop_acc. now apply Hcn.
  - rewrite compareLoop_cons_cons.
    destruct (gostring.gt (name s0) (name d0)) eqn:Egt.
    + rewrite compareLoop_acc. now apply Hgt.
    + destruct (gostring.eq (name s0) (name d0)) eqn:Eeq.
      * rewrite compareLoop_acc. now apply Heq.
      * rewrite compareLoop_acc. now apply Hlt.
Qed.

End PartitionFacts.

Section PartitionProperties.

Context {U : Type} `{url.Ops U}.

Variable Separator : ascii.

Local Abbreviation loop := (compareLoop Separator).
Local Abbreviation name := (objName Separator).

(** Every object of either side goes to exactly one result: the loop
    loses nothing and invents nothing, sorted input or not. *)
Lemma compareLoop_complete (s d : list (storage.Object U)) :
  Permutation
    (onlySourceOf (loop s d [] [] [])
     ++ map srcURL (commonOf (loop s d [] [] [])))
    (map (@storage.URL U) s)
  /\ Permutation
    (onlyDestOf (loop s d [] [] [])
     ++ map dstURL (commonOf (loop s d [] [] [])))
    (map (@storage.URL U) d).
Proof.
  apply (compareLoop_ind Separator (fun s d r =>
    Permutation (onlySourceOf r ++ map srcURL (commonOf r))
                (map (@storage.URL U) s)
    /\ Permutation (onlyDestOf r ++ map dstURL (commonOf r))
                (map (@storage.URL U) d))); cbn.
  - split; constructor.
  - intros d0 ds r [Hs Hd]. split; [exact Hs|now constructor].
  - intros s0 ss r [Hs Hd]. split; [now constructor|exact Hd].
  - intros s0 ss d0 ds r _ [Hs Hd]. split; [exact Hs|now constructor].
  - intros s0 ss d0 ds r _ _ [Hs Hd]. split.
    + symmetry. apply Permutation_cons_app. now symmetry.
    + symmetry. apply Permutation_cons_app. now symmetry.
  - intros s0 ss d0 ds r _ _ [Hs Hd]. split; [now constructor|exact Hd].
Qed.

Lemma ascending_tail {A} (key : A -> string) (a : A) (l : list A) :
  ascending key (a :: l) -> ascending key l.
Proof. intros Hs. now inversion Hs. Qed.

Lemma ascending_head {A} (key : A -> string) (a b : A) (l : list A) :
  ascending key (a :: l) -> In b l -> gostring.lt (key a) (key b) = true.
Proof.
  intros Hs Hin. inversion Hs as [|? ? _ Hall]; subst.
  rewrite Forall_forall in Hall. now apply Hall.
Qed.

Lemma lt_neq (a b : string) : gostring.lt a b = true -> a <> b.
Proof. intros Hlt ->. now rewrite lt_irrefl in Hlt. Qed.

(** Below the head of an ascending slice means below all of it. *)
Lemma below_ascending {A} (key : A -> string) (x : string) (a b : A)
    (l : list A) :
  ascending key (a :: l) -> gostring.lt x (key a) = true ->
  In b (a :: l) -> gostring.lt x (key b) = true.
Proof.
  intros Hs Hx [<-|Hin]; [exact Hx|].
  apply lt_trans with (key a); [exact Hx|].
  now apply ascending_head with l.
Qed.

Lemma compareLoop_sound (s d : list (storage.Object U)) :
  ascending name s -> ascending name d ->
  soundResult Separator s d (loop s d [] [] []).
Proof.
  apply (compareLoop_ind Separator (fun s d r =>
    ascending name s -> ascending name d -> soundResult Separator s d r));
    unfold soundResult; cbn [onlySourceOf onlyDestOf commonOf fst snd].
  - intros _ _. split; [|split]; intros ? [].
  - intros d0 ds r IH Hs Hd.
    destruct (IH Hs (ascending_tail Hd)) as (I1 & I2 & I3).
    split; [|split].
    + intros u Hu. destruct (I1 u Hu) as (o & [] & _).
    + intros u [<-|Hu].
      * exists d0. repeat split; [now left|intros ? []].
      * destruct (I2 u Hu) as (o & Ho & Hou & _).
        exists o. repeat split; [now right|exact Hou|intros ? []].
    + intros p Hp. destruct (I3 p Hp) as ([] & _).
  - intros s0 ss r IH Hs Hd.
    destruct (IH (ascending_tail Hs) Hd) as (I1 & I2 & I3).
    split; [|split].
    + intros u [<-|Hu].
      * exists s0. repeat split; [now left|intros ? []].
      * destruct (I1 u Hu) as (o & Ho & Hou & _).
        exists o. repeat split; [now right|exact Hou|intros ? []].
    + intros u Hu. destruct (I2 u Hu) as (o & [] & _).
    + intros p Hp. destruct (I3 p Hp) as (_ & [] & _).
  - (* the source name is the greater one *)
    intros s0 ss d0 ds r Hgt IH Hs Hd. unfold gostring.gt in Hgt.
    destruct (IH Hs (ascending_tail Hd)) as (I1 & I2 & I3).
    split; [|split].
    + intros u Hu. destruct (I1 u Hu) as (o & Ho & Hou & Hno).
      exists o. repeat split; [exact Ho|exact Hou|].
      intros o' [<-|Ho']; [|now apply Hno].
      apply lt_neq. now apply below_ascending with s0 ss.
    + intros u [<-|Hu].
      * exists d0. repeat split; [now left|].
        intros o' Ho'. apply not_eq_sym, lt_neq.
        now apply below_ascending with s0 ss.
      * destruct (I2 u Hu) as (o & Ho & Hou & Hno).
        exists o. repeat split; [now right|exact Hou|exact Hno].
    + intros p Hp. destruct (I3 p Hp) as (P1 & P2 & P3).
      repeat split; [exact P1|now right|exact P3].
  - (* equal names *)
    intros s0 ss d0 ds r _ Heq IH Hs Hd. apply eq_true_iff in Heq.
    destruct (IH (ascending_tail Hs) (ascending_tail Hd)) as (I1 & I2 & I3).
    split; [|split].
    + intros u Hu. destruct (I1 u Hu) as (o & Ho & Hou & Hno).
      exists o. repeat split; [now right|exact Hou|].
      intros o' [<-|Ho']; [|now apply Hno].
      rewrite <- Heq. apply lt_neq. now apply ascending_head with ss.
    + intros u Hu. destruct (I2 u Hu) as (o & Ho & Hou & Hno).
      exists o. repeat split; [now right|exact Hou|].
      intros o' [<-|Ho']; [|now apply Hno].
      rewrite Heq. apply lt_neq. now apply ascending_head with ds.
    + intros p [<-|Hp]; cbn.
      * repeat split; [now left|now left|exact Heq].
      * destruct (I3 p Hp) as (P1 & P2 & P3).
        repeat split; [now right|now right|exact P3].
  - (* the source name is the smaller one *)
    intros s0 ss d0 ds r Hgt Heq IH Hs Hd. unfold gostring.gt in Hgt.
    assert (Hlt : gostring.lt (name s0) (name d0) = true).
    { destruct (gostring.lt (name s0) (name d0)) eqn:E; [reflexivity|].
      apply (lt_connected _ _ E) in Hgt. apply eq_true_iff in Hgt.
      congruence. }
    destruct (IH (ascending_tail Hs) Hd) as (I1 & I2 & I3).
    split; [|split].
    + intros u [<-|Hu].
      * exists s0. repeat split; [now left|].
        intros o' Ho'. apply not_eq_sym, lt_neq.
        now apply below_ascending with d0 ds.
      * destruct (I1 u Hu) as (o & Ho & Hou & Hno).
        exists o. repeat split; [now right|exact Hou|exact Hno].
    + intros u Hu. destruct (I2 u Hu) as (o & Ho & Hou & Hno).
      exists o. repeat split; [exact Ho|exact Hou|].
      intros o' [<-|Ho']; [|now apply Hno].
      apply lt_neq. now apply below_ascending with d0 ds.
    + intros p Hp. destruct (I3 p Hp) as (P1 & P2 & P3).
      repeat split; [now right|exact P2|exact P3].
Qed.

End PartitionProperties.

Section PartitionTheorem.

Context {U : Type} `{url.Ops U}.

Variable Separator : ascii.

Lemma sorted_nodup_ascending {A} (key : A -> string) (l : list A) :
  StronglySorted (inOrder key) l -> NoDup (map key l) -> ascending key l.
Proof.
  induction 1 as [|a l Hl IH Ha]; intros Hnd; [constructor|].
  inversion Hnd as [|? ? Hnot Hnd']; subst.
  constructor; [now apply IH|].
  rewrite Forall_forall in *. intros b Hb.
  destruct (gostring.lt (key a) (key b)) eqn:E; [reflexivity|].
  exfalso. apply Hnot.
  rewrite (lt_connected _ _ E (Ha b Hb)). now apply in_map.
Qed.

Lemma ascending_ext {A} (key key' : A -> string) (l : list A) :
  (forall a, In a l -> key' a = key a) -> ascending key l -> ascending key' l.
Proof.
  intros Hext Hs. induction Hs as [|a l Hl IH Ha]; [constructor|].
  constructor.
  - apply IH. intros b Hb. apply Hext. now right.
  - rewrite Forall_forall in *. intros b Hb.
    rewrite (Hext a (or_introl eq_refl)), (Hext b (or_intror Hb)).
    now apply Ha.
Qed.

(** The sorted slice is in ascending order of the loop's names when the
    slash-normalization leaves the relative paths of the slice alone. *)
Lemma SliceStable_ascending_names (l : list (storage.Object U)) :
  (forall o, In o l -> objName Separator o = relativeOf o) ->
  NoDup (map relativeOf l) ->
  ascending (objName Separator) (sort.SliceStable lessRelative l).
Proof.
  intros Hagree Hnd. rewrite lessRelative_lessBy.
  pose proof (SliceStable_perm relativeOf l) as Hp.
  apply ascending_ext with relativeOf.
  - intros o Ho. apply Hagree. now apply (Permutation_in _ Hp).
  - apply sorted_nodup_ascending; [apply SliceStable_sorted|].
    apply (Permutation_NoDup (l := map relativeOf l)); [|exact Hnd].
    apply Permutation_map. now symmetry.
Qed.

(** Partition completeness and disjointness, where the order of the sort
    and the order of the loop agree: every location of either side is in
    exactly one result, and no name occurs in two results. *)
Lemma compareObjects_partition (source dest : list (storage.Object U)) :
  (forall o, In o (source ++ dest) -> objName Separator o = relativeOf o) ->
  NoDup (map relativeOf source) -> NoDup (map relativeOf dest) ->
  Permutation
    (onlySourceOf (compareObjects Separator source dest)
     ++ map srcURL (commonOf (compareObjects Separator source dest)))
    (map (@storage.URL U) source)
  /\ Permutation
    (onlyDestOf (compareObjects Separator source dest)
     ++ map dstURL (commonOf (compareObjects Separator source dest)))
    (map (@storage.URL U) dest)
  /\ (forall u u',
        In u (onlySourceOf (compareObjects Separator source dest)) ->
        In u' (onlyDestOf (compareObjects Separator source dest)) ->
        nameOf Separator u <> nameOf Separator u')
  /\ (forall u p,
        In u (onlySourceOf (compareObjects Separator source dest)) ->
        In p (commonOf (compareObjects Separator source dest)) ->
        nameOf Separator u <> nameOf Separator (srcURL p)
        /\ nameOf Separator u <> nameOf Separator (dstURL p))
  /\ (forall u p,
        In u (onlyDestOf (compareObjects Separator source dest)) ->
        In p (commonOf (compareObjects Separator source dest)) ->
        nameOf Separator u <> nameOf Separator (srcURL p)
        /\ nameOf Separator u <> nameOf Separator (dstURL p)).
Proof.
  intros Hagree Hns Hnd. unfold compareObjects.
  set (ss := sort.SliceStable lessRelative source).
  set (ds := sort.SliceStable lessRelative dest).
  assert (Hss : ascending (objName Separator) ss).
  { apply SliceStable_ascending_names; [|exact Hns].
    intros o Ho. apply Hagree, in_or_app. now left. }
  assert (Hds : ascending (objName Separator) ds).
  { apply SliceStable_ascending_names; [|exact Hnd].
    intros o Ho. apply Hagree, in_or_app. now right. }
  destruct (compareLoop_complete Separator ss ds) as [Cs Cd].
  destruct (compareLoop_sound Hss Hds) as (S1 & S2 & S3).
  assert (Ps : Permutation ss source)
    by (unfold ss; rewrite lessRelative_lessBy; apply SliceStable_perm).
  assert (Pd : Permutation ds dest)
    by (unfold ds; rewrite lessRelative_lessBy; apply SliceStable_perm).
  split; [|split; [|split; [|split]]].
  - rewrite Cs. now apply Permutation_map.
  - rewrite Cd. now apply Permutation_map.
  - intros u u' Hu Hu'.
    destruct (S1 u Hu) as (o & _ & <- & Hno).
    destruct (S2 u' Hu') as (o' & Ho' & <- & _).
    intros E. now apply (Hno o' Ho').
  - intros u p Hu Hp.
    destruct (S1 u Hu) as (o & _ & <- & Hno).
    destruct (S3 p Hp) as (_ & Pdst & Pname).
    assert (Hne : nameOf Separator (storage.URL o)
                  <> nameOf Separator (dstURL p))
      by (intros E; now apply (Hno _ Pdst)).
    split; [|exact Hne].
    unfold nameOf, srcURL, dstURL in *. unfold objName in Pname.
    now rewrite Pname.
  - intros u p Hu Hp.
    destruct (S2 u Hu) as (o & _ & <- & Hno).
    destruct (S3 p Hp) as (Psrc & _ & Pname).
    assert (Hne : nameOf Separator (storage.URL o)
                  <> nameOf Separator (srcURL p))
      by (intros E; now apply (Hno _ Psrc)).
    split; [exact Hne|].
    unfold nameOf, srcURL, dstURL in *. unfold objName in Pname.
    now rewrite <- Pname.
Qed.

End PartitionTheorem.

(** On a host whose separator is the slash, the partition is complete and
    disjoint for all listings without two objects at one relative path. *)
Lemma compareObjects_partition_slash {U : Type} `{url.Ops U}
    (source dest : list (storage.Object U)) :
  NoDup (map relativeOf source) -> NoDup (map relativeOf dest) ->
  Permutation
    (onlySourceOf (compareObjects "/" source dest)
     ++ map srcURL (commonOf (compareObjects "/" source dest)))
    (map (@storage.URL U) source)
  /\ Permutation
    (onlyDestOf (compareObjects "/" source dest)
     ++ map dstURL (commonOf (compareObjects "/" source dest)))
    (map (@storage.URL U) dest)
  /\ (forall u u',
        In u (onlySourceOf (compareObjects "/" source dest)) ->
        In u' (onlyDestOf (compareObjects "/" source dest)) ->
        nameOf "/" u <> nameOf "/" u').
Proof.
  intros Hns Hnd.
  destruct (@compareObjects_partition U _ "/"%char source dest)
    as (P1 & P2 & P3 & _); auto.
Qed.

(** ** The claims about [compareObjects] *)

(** C3.  Ordering independence: for listings in which no two objects of a
    side have the same relative path, [compareObjects] returns the same three
    results for every order in which each listing arrives.  (Objects with
    different slash-normalized names have different relative paths, so the
    listings of the claim are covered: [NoDup_objName_relativeOf].) *)
Theorem compareObjects_order_independent {U : Type} `{url.Ops U}
    (Separator : ascii) (source source' dest dest' : list (storage.Object U)) :
  Permutation source source' -> Permutation dest dest' ->
  NoDup (map relativeOf source) -> NoDup (map relativeOf dest) ->
  compareObjects Separator source' dest' = compareObjects Separator source dest.
Proof. apply compareObjects_perm. Qed.

Lemma compareObjects_order_independent_witness :
  compareObjects "/"
    [plain.src_b; plain.src_a; plain.src_sub_c] [plain.dst_old; plain.dst_a]
  = compareObjects "/"
      [plain.src_a; plain.src_b; plain.src_sub_c] [plain.dst_a; plain.dst_old].
Proof.
  apply (@compareObjects_order_independent plain.URL plain.ops "/"%char
           [plain.src_a; plain.src_b; plain.src_sub_c]
           [plain.src_b; plain.src_a; plain.src_sub_c]
           [plain.dst_a; plain.dst_old] [plain.dst_old; plain.dst_a]).
  - apply perm_swap.
  - apply perm_swap.
  - repeat constructor; simpl; intuition discriminate.
  - repeat constructor; simpl; intuition discriminate.
Defined.

(** The example of the specification: [b.txt] and [sub/c.txt] are only in
    the source, [old.txt] only in the destination, [a.txt] in both. *)
Example compareObjects_example :
  compareObjects "/"
    [plain.src_sub_c; plain.src_a; plain.src_b] [plain.dst_old; plain.dst_a]
  = ([storage.URL plain.src_b; storage.URL plain.src_sub_c],
     [storage.URL plain.dst_old],
     [{| ObjectPair.src := plain.src_a; ObjectPair.dst := plain.dst_a |}]).
Proof. reflexivity. Qed.

(** C2.  Partition disjointness is lost on a host whose separator is the
    backslash.  The listing [dir\aZ], [dir\a\b] against a bucket that holds
    [a/b]: the sort, on the raw relative paths, puts [aZ] first; the loop, on
    the slash-normalized names, meets [aZ] against [a/b], takes [a/b] for
    destination-only, and then takes both source objects for source-only.
    The name [a/b] is in two results, and in no pair. *)
Theorem compareObjects_backslash_overlap :
  compareObjects plain.backslash
    [plain.local_aZ; plain.local_a_b] [plain.remote_a_b]
  = ([storage.URL plain.local_aZ; storage.URL plain.local_a_b],
     [storage.URL plain.remote_a_b],
     [])
  /\ nameOf plain.backslash (storage.URL plain.local_a_b)
     = nameOf plain.backslash (storage.URL plain.remote_a_b)
  /\ NoDup (map (objName plain.backslash) [plain.local_aZ; plain.local_a_b])
  /\ NoDup (map (objName plain.backslash) [plain.remote_a_b]).
Proof.
  split; [reflexivity|]. split; [reflexivity|].
  split; repeat constructor; simpl; intuition discriminate.
Qed.

(** C4.  The sort compares the relative paths as they are, the loop their
    slash-normalized names.  On a host whose separator is the backslash the
    two orders differ: the sort leaves [aZ] before [a\b], whose name [a/b]
    the loop finds smaller than [aZ]. *)
Theorem presort_not_on_normalized_names :
  lessRelative plain.local_aZ plain.local_a_b = true
  /\ sort.SliceStable lessRelative [plain.local_a_b; plain.local_aZ]
     = [plain.local_aZ; plain.local_a_b]
  /\ map (objName plain.backslash)
       (sort.SliceStable lessRelative [plain.local_a_b; plain.local_aZ])
     = ["aZ"; "a/b"]
  /\ gostring.lt (objName plain.backslash plain.local_a_b)
                 (objName plain.backslash plain.local_aZ) = true.
Proof. repeat split. Qed.

(** ** The destination resolver *)

Section Resolver.

Context {U : Type} `{url.Ops U}.

(** C1.  [generateDestinationURL] against the table of section 4.4.  A remote
    destination that is an exact key is returned as it is (a clone), in batch
    mode too; every other destination is joined with the relative path of the
    source in batch mode and with its base name otherwise.  So the code
    follows the table except in its first row for a remote exact key. *)
Theorem generateDestinationURL_table (srcurl dsturl : U) (isBatch : bool) :
  generateDestinationURL srcurl dsturl isBatch
  = match shapeOf dsturl, isBatch with
    | RemoteExactKey, _ => url.Clone dsturl
    | _, true => url.Join dsturl (url.Relative srcurl)
    | _, false => url.Join dsturl (url.Base srcurl)
    end
  /\ match shapeOf dsturl, isBatch with
     | RemoteExactKey, true =>
         generateDestinationURL srcurl dsturl isBatch = url.Clone dsturl
     | _, _ =>
         generateDestinationURL srcurl dsturl isBatch
         = resolveDestination srcurl dsturl isBatch
     end.
Proof.
  unfold generateDestinationURL, resolveDestination, shapeOf.
  destruct (url.IsRemote dsturl);
    [destruct (url.IsPrefix dsturl || url.IsBucket dsturl)|];
    destruct isBatch; split; reflexivity.
Qed.

End Resolver.

(** C1, the first row of the table at a remote exact key: syncing the
    directory [dir] in batch mode to [s3://bucket/key], the object
    [sub/c.txt] is sent to [s3://bucket/key] itself, while the table joins
    the relative path to the destination. *)
Lemma generateDestinationURL_batch_exact_key :
  shapeOf (plain.s3 "bucket" "key" "") = RemoteExactKey
  /\ generateDestinationURL
       (plain.local "dir/sub/c.txt" "sub/c.txt") (plain.s3 "bucket" "key" "") true
     = plain.s3 "bucket" "key" ""
  /\ resolveDestination
       (plain.local "dir/sub/c.txt" "sub/c.txt") (plain.s3 "bucket" "key" "") true
     = plain.s3 "bucket" "keysub/c.txt" ""
  /\ generateDestinationURL
       (plain.local "dir/sub/c.txt" "sub/c.txt") (plain.s3 "bucket" "key" "") true
     <> resolveDestination
       (plain.local "dir/sub/c.txt" "sub/c.txt") (plain.s3 "bucket" "key" "") true.
Proof. repeat split. discriminate. Qed.

(** ** The skip filter *)

Section SkipFilter.

Context {U StorageOpts : Type} `{storage.Printer U}.

(** C5.  An object in the Glacier storage class is skipped on either side.
    On the destination side ([verbose] false) nothing is reported.  On the
    source side the Glacier warning is reported when the object is a file
    without an error of its own. *)
Theorem shouldSkipObject_glacier (s : Sync.t StorageOpts)
    (object : storage.Object U) (verbose : bool) :
  storage.IsGlacier (storage.Class object) = true ->
  out.value (shouldSkipObject s object verbose) = true
  /\ out.events (shouldSkipObject s object false) = []
  /\ (storage.IsDir (storage.Type_ object) = false ->
      storage.Err object = None ->
      out.events (shouldSkipObject s object true)
      = [out.printError (Sync.fullCommand s) (Sync.op s)
           (fmt.Errorf "object '%v' is on Glacier storage"
              [storage.Object_String object])]).
Proof.
  intros Hg. unfold shouldSkipObject. rewrite Hg.
  destruct (storage.IsDir (storage.Type_ object)); cbn.
  - repeat split; discriminate.
  - destruct (storage.Err object) as [err|]; cbn.
    + destruct (errorpkg.cancelation err); cbn;
        repeat split; try discriminate; destruct verbose; reflexivity.
    + repeat split; destruct verbose; reflexivity.
Qed.

End SkipFilter.

Lemma shouldSkipObject_glacier_witness :
  out.value
    (shouldSkipObject (plain.sync false true "s3://bucket/" [])
       (plain.file (plain.local "dir/a" "a") true) true) = true
  /\ out.events
       (shouldSkipObject (plain.sync false true "s3://bucket/" [])
          (plain.file (plain.local "dir/a" "a") true) true)
     = [out.printError "sync dir/ s3://bucket/" "sync"
          {| errorpkg.Error := "object 'dir/a' is on Glacier storage";
             errorpkg.cancelation := false |}].
Proof.
  destruct (@shouldSkipObject_glacier plain.URL plain.Client
              plain.printer (plain.sync false true "s3://bucket/" [])
              (plain.file (plain.local "dir/a" "a") true) true eq_refl)
    as (Hv & _ & He).
  split; [exact Hv|exact (He eq_refl eq_refl)].
Defined.

(** C5, the destination side: a Glacier object listed at the destination is
    skipped and nothing is reported. *)
Lemma shouldSkipObject_glacier_destination_silent :
  storage.IsGlacier
    (storage.Class (plain.file (plain.s3 "bucket" "a" "a") true)) = true
  /\ out.value
       (shouldSkipObject (plain.sync false true "s3://bucket/" [])
          (plain.file (plain.s3 "bucket" "a" "a") true) false) = true
  /\ out.events
       (shouldSkipObject (plain.sync false true "s3://bucket/" [])
          (plain.file (plain.s3 "bucket" "a" "a") true) false) = [].
Proof. repeat split. Qed.

(** ** The plan emitter *)

Section OutputFacts.

Context {U : Type}.

Lemma events_bind {A B} (m : out.M U A) (k : A -> out.M U B) :
  out.events (out.bind m k) = out.events m ++ out.events (k (out.value m)).
Proof.
  unfold out.bind, out.events, out.value. destruct m as [a w1]. cbn.
  now destruct (k a).
Qed.

Lemma events_forEach {A} (xs : list A) (body : A -> out.M U unit) :
  out.events (out.forEach xs body)
  = flat_map (fun x => out.events (body x)) xs.
Proof.
  induction xs as [|x xs IH]; [reflexivity|].
  cbn [out.forEach flat_map]. now rewrite events_bind, IH.
Qed.

Lemma written_app (w1 w2 : list (out.Event U)) :
  out.written (w1 ++ w2) = out.written w1 ++ out.written w2.
Proof.
  induction w1 as [|e w1 IH]; [reflexivity|].
  destruct e; cbn; now rewrite IH.
Qed.

Lemma written_flat_map {A} (f : A -> list (out.Event U)) (xs : list A) :
  out.written (flat_map f xs) = flat_map (fun x => out.written (f x)) xs.
Proof.
  induction xs as [|x xs IH]; [reflexivity|].
  cbn. now rewrite written_app, IH.
Qed.

End OutputFacts.

Section PlanFacts.

Context {U Client StorageOpts : Type}.
Context `{url.Ops U} `{Externals U Client StorageOpts}.

(** The plan, phase after phase. *)
Lemma planRun_events (s : Sync.t StorageOpts) (c : cli.Context)
    (onlySource onlyDest : list U) (common : list (ObjectPair.t U))
    (dsturl : U) (strategy : SyncStrategy U) (isBatch : bool) :
  out.events
    (planRun s c onlySource onlyDest common dsturl strategy isBatch)
  = flat_map (fun u => out.events (planOnlySource s c dsturl isBatch u))
      onlySource
    ++ flat_map (fun p => out.events (planCommon s c strategy p)) common
    ++ out.events (planOnlyDest s c onlyDest)
    ++ [out.Close].
Proof.
  unfold planRun. rewrite !events_bind, !events_forEach. reflexivity.
Qed.

Lemma planCommon_events (s : Sync.t StorageOpts) (c : cli.Context)
    (strategy : SyncStrategy U) (p : ObjectPair.t U) :
  out.events (planCommon s c strategy p)
  = match ShouldSync strategy (ObjectPair.src p) (ObjectPair.dst p) with
    | Some err => [out.printDebug (Sync.op s) err [srcURL p; dstURL p]]
    | None =>
        match generateCommand c "cp" defaultFlags [srcURL p; dstURL p] with
        | inl command => [out.Fprintln command]
        | inr err => [out.printDebug (Sync.op s) err [srcURL p; dstURL p]]
        end
    end.
Proof.
  unfold planCommon, srcURL, dstURL.
  destruct (ShouldSync strategy _ _); [reflexivity|].
  now destruct (generateCommand c "cp" defaultFlags _).
Qed.

Lemma planOnlyDest_events (s : Sync.t StorageOpts) (c : cli.Context)
    (onlyDest : list U) :
  out.events (planOnlyDest s c onlyDest)
  = if Sync.delete s then
      match onlyDest with
      | [] => []
      | _ :: _ =>
          match generateCommand c "rm" defaultFlags onlyDest with
          | inl command => [out.Fprintln command]
          | inr err => [out.printDebug (Sync.op s) err onlyDest]
          end
      end
    else [].
Proof.
  unfold planOnlyDest. destruct (Sync.delete s); [|reflexivity].
  destruct onlyDest as [|u rest]; [reflexivity|].
  cbn [andb length Nat.ltb Nat.leb].
  now destruct (generateCommand c "rm" defaultFlags (u :: rest)).
Qed.

(** C6.  The polarity of the strategy: a pair for which [ShouldSync] returns
    an error leaves a debug trace and nothing else; a pair for which it
    returns [nil] is handed to the command generator, and its copy command
    is written when the generator returns one (a generator error leaves a
    debug trace instead).  The plan holds just that for each pair, in
    order, between the source-only copies and the delete step. *)
Theorem planRun_common_polarity (s : Sync.t StorageOpts) (c : cli.Context)
    (onlySource onlyDest : list U) (common : list (ObjectPair.t U))
    (dsturl : U) (strategy : SyncStrategy U) (isBatch : bool) :
  out.events
    (planRun s c onlySource onlyDest common dsturl strategy isBatch)
  = flat_map (fun u => out.events (planOnlySource s c dsturl isBatch u))
      onlySource
    ++ flat_map
         (fun p =>
            match ShouldSync strategy (ObjectPair.src p) (ObjectPair.dst p) with
            | Some err => [out.printDebug (Sync.op s) err [srcURL p; dstURL p]]
            | None =>
                match generateCommand c "cp" defaultFlags [srcURL p; dstURL p] with
                | inl command => [out.Fprintln command]
                | inr err =>
                    [out.printDebug (Sync.op s) err [srcURL p; dstURL p]]
                end
            end)
         common
    ++ out.events (planOnlyDest s c onlyDest)
    ++ [out.Close].
Proof.
  rewrite planRun_events. do 2 f_equal.
  apply flat_map_ext. intros p. apply planCommon_events.
Qed.

Lemma planOnlySource_events (s : Sync.t StorageOpts) (c : cli.Context)
    (dsturl : U) (isBatch : bool) (u : U) :
  out.events (planOnlySource s c dsturl isBatch u)
  = match
      generateCommand c "cp" defaultFlags
        [u; generateDestinationURL u dsturl isBatch]
    with
    | inl command => [out.Fprintln command]
    | inr err =>
        [out.printDebug (Sync.op s) err
           [u; generateDestinationURL u dsturl isBatch]]
    end.
Proof.
  unfold planOnlySource.
  now destruct (generateCommand c "cp" defaultFlags _).
Qed.

(** C7.  The whole plan, call by call.  The two loops ask the command
    generator for a [cp] only - one per source-only location, one per pair
    that the strategy wants synchronized - and write what it returns; the
    generator is asked for an [rm] in one place, once, for all the
    destination-only locations together, and only with the delete flag set
    and at least one such location; that one command is written when the
    generator returns it (a generator error leaves a debug trace and no
    command).  With the flag off the plan holds nothing of the
    destination-only locations. *)
Theorem planRun_delete_gating (s : Sync.t StorageOpts) (c : cli.Context)
    (onlySource onlyDest : list U) (common : list (ObjectPair.t U))
    (dsturl : U) (strategy : SyncStrategy U) (isBatch : bool) :
  out.events
    (planRun s c onlySource onlyDest common dsturl strategy isBatch)
  = flat_map
      (fun u =>
         match
           generateCommand c "cp" defaultFlags
             [u; generateDestinationURL u dsturl isBatch]
         with
         | inl command => [out.Fprintln command]
         | inr err =>
             [out.printDebug (Sync.op s) err
                [u; generateDestinationURL u dsturl isBatch]]
         end)
      onlySource
    ++ flat_map
         (fun p =>
            match ShouldSync strategy (ObjectPair.src p) (ObjectPair.dst p) with
            | Some err => [out.printDebug (Sync.op s) err [srcURL p; dstURL p]]
            | None =>
                match
                  generateCommand c "cp" defaultFlags [srcURL p; dstURL p]
                with
                | inl command => [out.Fprintln command]
                | inr err =>
                    [out.printDebug (Sync.op s) err [srcURL p; dstURL p]]
                end
            end)
         common
    ++ (if Sync.delete s then
          match onlyDest with
          | [] => []
          | _ :: _ =>
              match generateCommand c "rm" defaultFlags onlyDest with
              | inl command => [out.Fprintln command]
              | inr err => [out.printDebug (Sync.op s) err onlyDest]
              end
          end
        else [])
    ++ [out.Close].
Proof.
  rewrite planRun_events, planOnlyDest_events.
  f_equal; [|f_equal].
  - apply flat_map_ext. intros u. apply planOnlySource_events.
  - apply flat_map_ext. intros p. apply planCommon_events.
Qed.

(** C10.  Every line that reaches the pipe is what the command generator
    returned for a [cp] or an [rm] with the flags [{"raw": true}]. *)
Theorem planRun_raw_everywhere (s : Sync.t StorageOpts) (c : cli.Context)
    (onlySource onlyDest : list U) (common : list (ObjectPair.t U))
    (dsturl : U) (strategy : SyncStrategy U) (isBatch : bool)
    (command : string) :
  In command
    (out.written
       (out.events
          (planRun s c onlySource onlyDest common dsturl strategy isBatch))) ->
  exists cmd urls,
    (cmd = "cp" \/ cmd = "rm")
    /\ generateCommand c cmd [("raw", FlagBool true)] urls = inl command.
Proof.
  rewrite planRun_events, !written_app, !written_flat_map.
  rewrite !in_app_iff, !in_flat_map.
  intros [(u & _ & Hu) | [(p & _ & Hp) | [Hd | []]]].
  - unfold planOnlySource in Hu.
    destruct (generateCommand c "cp" defaultFlags _) as [line|err] eqn:E;
      cbn in Hu; [|contradiction].
    destruct Hu as [<-|[]]. exists "cp". eexists. split; [now left|exact E].
  - rewrite planCommon_events in Hp.
    destruct (ShouldSync strategy _ _); [contradiction|].
    destruct (generateCommand c "cp" defaultFlags _) as [line|err] eqn:E;
      cbn in Hp; [|contradiction].
    destruct Hp as [<-|[]]. exists "cp". eexists. split; [now left|exact E].
  - rewrite planOnlyDest_events in Hd.
    destruct (Sync.delete s); [|contradiction].
    destruct onlyDest as [|u rest]; [contradiction|].
    destruct (generateCommand c "rm" defaultFlags _) as [line|err] eqn:E;
      cbn in Hd; [|contradiction].
    destruct Hd as [<-|[]]. exists "rm". eexists. split; [now right|exact E].
Qed.

End PlanFacts.

Lemma planRun_raw_everywhere_witness :
  exists cmd urls,
    (cmd = "cp" \/ cmd = "rm")
    /\ plain.renderCommand (plain.context false) cmd [("raw", FlagBool true)] urls
       = inl "s5cmd rm --raw=true s3://bucket/old.txt".
Proof.
  apply (@planRun_raw_everywhere plain.URL plain.Client plain.Client
           plain.ops plain.externals
           (plain.sync true true "s3://bucket/" []) (plain.context false)
           [plain.local "dir/b.txt" "b.txt"]
           [plain.s3 "bucket" "old.txt" "old.txt"] []
           (plain.s3 "bucket" "" "") plain.alwaysSync true).
  vm_compute. right. left. reflexivity.
Defined.

(** The plan of the example of the specification, in batch mode with
    deletion enabled: the two source-only copies, the copy of the common
    pair, one delete. *)
Example planRun_example :
  out.written
    (out.events
       (planRun (plain.sync true true "s3://bucket/" []) (plain.context false)
          [storage.URL plain.src_b; storage.URL plain.src_sub_c]
          [storage.URL plain.dst_old]
          [{| ObjectPair.src := plain.src_a; ObjectPair.dst := plain.dst_a |}]
          (plain.s3 "bucket" "" "") plain.alwaysSync true))
  = ["s5cmd cp --raw=true dir/b.txt s3://bucket/b.txt";
     "s5cmd cp --raw=true dir/sub/c.txt s3://bucket/sub/c.txt";
     "s5cmd cp --raw=true dir/a.txt s3://bucket/a.txt";
     "s5cmd rm --raw=true s3://bucket/old.txt"].
Proof. reflexivity. Qed.

(** C6, a pair in need of synchronization that is not copied: the strategy
    returns [nil] for the pair, the command generator returns an error, and
    the plan holds a debug trace for the pair and no copy command. *)
Lemma planRun_sync_required_not_copied :
  ShouldSync plain.alwaysSync plain.local_a_b plain.remote_a_b = None
  /\ out.events
       (@planRun plain.URL plain.Client plain.Client plain.ops plain.refusing
          (plain.sync false true "s3://bucket/" []) (plain.context false)
          [] []
          [{| ObjectPair.src := plain.local_a_b;
              ObjectPair.dst := plain.remote_a_b |}]
          (plain.s3 "bucket" "" "") plain.alwaysSync true)
     = [out.printDebug "sync"
          {| errorpkg.Error := "cannot generate command";
             errorpkg.cancelation := false |}
          [storage.URL plain.local_a_b; storage.URL plain.remote_a_b];
        out.Close]
  /\ out.written
       (out.events
          (@planRun plain.URL plain.Client plain.Client plain.ops plain.refusing
             (plain.sync false true "s3://bucket/" []) (plain.context false)
             [] []
             [{| ObjectPair.src := plain.local_a_b;
                 ObjectPair.dst := plain.remote_a_b |}]
             (plain.s3 "bucket" "" "") plain.alwaysSync true))
     = [].
Proof. repeat split. Qed.

(** C7, a delete step without a delete command: the delete flag is set, one
    location is destination-only, the command generator returns an error,
    and the plan holds a debug trace and no command. *)
Lemma planRun_delete_not_emitted :
  Sync.delete (plain.sync true true "s3://bucket/" []) = true
  /\ out.events
       (@planRun plain.URL plain.Client plain.Client plain.ops plain.refusing
          (plain.sync true true "s3://bucket/" []) (plain.context false)
          [] [plain.s3 "bucket" "old.txt" "old.txt"] []
          (plain.s3 "bucket" "" "") plain.alwaysSync true)
     = [out.printDebug "sync"
          {| errorpkg.Error := "cannot generate command";
             errorpkg.cancelation := false |}
          [plain.s3 "bucket" "old.txt" "old.txt"];
        out.Close]
  /\ out.written
       (out.events
          (@planRun plain.URL plain.Client plain.Client plain.ops plain.refusing
             (plain.sync true true "s3://bucket/" []) (plain.context false)
             [] [plain.s3 "bucket" "old.txt" "old.txt"] []
             (plain.s3 "bucket" "" "") plain.alwaysSync true))
     = [].
Proof. repeat split. Qed.

(** ** The error aggregation loop *)

Section Aggregation.

Context {U Client StorageOpts : Type}.
Context `{url.Ops U} `{Externals U Client StorageOpts}.

Lemma drainErrors_no_exhaustion (s : Sync.t StorageOpts)
    (errs merrorWaiter : list errorpkg.error) :
  Forall (fun e => tooManyOpenFiles e = false) errs ->
  drainErrors (U := U) s errs merrorWaiter
  = (ChannelClosed (merrorWaiter ++ errs),
     map (out.printError (Sync.fullCommand s) (Sync.op s)) errs).
Proof.
  intros Hall. revert merrorWaiter.
  induction Hall as [|e errs He _ IH]; intros acc; cbn [drainErrors map].
  - unfold out.ret. now rewrite app_nil_r.
  - unfold tooManyOpenFiles in He. rewrite He.
    unfold out.bind, out.tell, multierror.Append.
    rewrite IH. cbn. now rewrite <- app_assoc.
Qed.

Lemma drainErrors_exhaustion (s : Sync.t StorageOpts)
    (pre post merrorWaiter : list errorpkg.error) (err : errorpkg.error) :
  Forall (fun e => tooManyOpenFiles e = false) pre ->
  tooManyOpenFiles err = true ->
  drainErrors (U := U) s (pre ++ err :: post) merrorWaiter
  = (Exit 1,
     map (out.printError (Sync.fullCommand s) (Sync.op s)) pre
     ++ [out.Println (TrimSpace fdlimitWarning);
         out.Printf "ERROR %v\n" [errorpkg.Error err]]).
Proof.
  intros Hall Herr. revert merrorWaiter.
  induction Hall as [|e pre He _ IH]; intros acc;
    cbn [drainErrors map app].
  - unfold tooManyOpenFiles in Herr. now rewrite Herr.
  - unfold tooManyOpenFiles in He. rewrite He.
    unfold out.bind, out.tell. now rewrite IH.
Qed.

(** The loop over the error channel.  The first error whose text contains
    "too many open files" is reported together with the warning about the
    file-descriptor limit and ends the process with status 1: nothing after
    it is read.  Errors without that text are reported one by one, in
    order, and gathered in [merrorWaiter]. *)
Lemma drainErrors_loop (s : Sync.t StorageOpts)
    (pre post : list errorpkg.error) (err : errorpkg.error) :
  Forall (fun e => tooManyOpenFiles e = false) pre ->
  (tooManyOpenFiles err = true ->
   drainErrors (U := U) s (pre ++ err :: post) []
   = (Exit 1,
      map (out.printError (Sync.fullCommand s) (Sync.op s)) pre
      ++ [out.Println (TrimSpace fdlimitWarning);
          out.Printf "ERROR %v\n" [errorpkg.Error err]]))
  /\ drainErrors (U := U) s pre []
     = (ChannelClosed pre,
        map (out.printError (Sync.fullCommand s) (Sync.op s)) pre).
Proof.
  intros Hall. split.
  - intros Herr. now apply drainErrors_exhaustion.
  - now rewrite drainErrors_no_exhaustion.
Qed.

End Aggregation.

(** ** The two listings *)

Section Listings.

Context {U Client StorageOpts : Type}.
Context `{storage.Printer U} `{Externals U Client StorageOpts}.

Lemma value_bind {A B} (m : out.M U A) (k : A -> out.M U B) :
  out.value (out.bind m k) = out.value (k (out.value m)).
Proof.
  unfold out.bind, out.value. destruct m as [a w1]. cbn. now destruct (k a).
Qed.

Lemma shouldSkipObject_value (s : Sync.t StorageOpts)
    (object : storage.Object U) (verbose : bool) :
  out.value (shouldSkipObject s object verbose) = negb (eligible object).
Proof.
  unfold shouldSkipObject, eligible.
  destruct (storage.IsDir (storage.Type_ object)); [reflexivity|].
  destruct (storage.Err object) as [err|]; cbn.
  - destruct (errorpkg.cancelation err); [reflexivity|].
    now destruct verbose.
  - destruct (storage.IsGlacier (storage.Class object)); [|reflexivity].
    now destruct verbose.
Qed.

Lemma collectObjects_value (s : Sync.t StorageOpts) (verbose : bool)
    (channel objects : list (storage.Object U)) :
  out.value (collectObjects s verbose channel objects)
  = objects ++ filter eligible channel.
Proof.
  revert objects. induction channel as [|o rest IH]; intros objects.
  - cbn. now rewrite app_nil_r.
  - cbn [collectObjects filter]. rewrite value_bind, shouldSkipObject_value.
    destruct (eligible o); cbn [negb]; rewrite IH; [|reflexivity].
    now rewrite <- app_assoc.
Qed.

(** C9.  The source listing is asked with the [followSymlinks] of the
    command, which [NewSync] sets to the opposite of the flag
    [no-follow-symlinks]; the destination listing is asked with
    [followSymlinks] false, whatever the flag.  Each side keeps what the skip
    filter lets through. *)
Theorem destination_listing_never_follows_symlinks (s : Sync.t StorageOpts)
    (srcurl dsturl destObjectsURL : U) (sourceClient destClient : Client) :
  NewClient srcurl (Sync.storageOpts s) = inl sourceClient ->
  NewClient dsturl (Sync.storageOpts s) = inl destClient ->
  url_New (destinationURLPath s) false = inl destObjectsURL ->
  out.value (getSourceAndDestinationObjects s srcurl dsturl)
  = inl (filter eligible (List sourceClient srcurl (Sync.followSymlinks s)),
         filter eligible (List destClient destObjectsURL false))
  /\ forall c : cli.Context,
       Sync.followSymlinks (NewSync c)
       = negb (cli.Bool c "no-follow-symlinks").
Proof.
  intros Hsrc Hdst Hurl. split; [|reflexivity].
  unfold getSourceAndDestinationObjects. rewrite Hsrc, Hdst.
  cbv zeta. rewrite Hurl, !value_bind. cbn [out.value out.ret fst].
  now rewrite !collectObjects_value.
Qed.

End Listings.

Lemma destination_listing_never_follows_symlinks_witness :
  out.value
    (getSourceAndDestinationObjects
       (plain.sync false true "s3://bucket/"
          [(plain.local_aZ, false); (plain.local_a_b, true)])
       (plain.local "dir/" "") (plain.s3 "bucket" "" ""))
  = inl ([plain.local_aZ; plain.local_a_b], [plain.local_aZ]).
Proof.
  exact (proj1
    (@destination_listing_never_follows_symlinks plain.URL plain.Client
       plain.Client plain.printer plain.externals
       (plain.sync false true "s3://bucket/"
          [(plain.local_aZ, false); (plain.local_a_b, true)])
       (plain.local "dir/" "") (plain.s3 "bucket" "" "")
       (plain.s3 "bucket" "*" "")
       [(plain.local_aZ, false); (plain.local_a_b, true)]
       [(plain.local_aZ, false); (plain.local_a_b, true)]
       eq_refl eq_refl eq_refl)).
Defined.

(** ** The loop on its cursors *)

Section CursorFacts.

Context {U : Type} `{url.Ops U}.

Variable Separator : ascii.

Lemma objectAt_skipn (objects : list (storage.Object U)) (i : Z) :
  objectAt objects i = hd_error (skipn (Z.to_nat i) objects).
Proof.
  unfold objectAt. rewrite hd_error_skipn.
  destruct (i <? Z.of_nat (length objects))%Z eqn:E; [reflexivity|].
  symmetry. apply nth_error_None. apply Z.ltb_ge in E. lia.
Qed.

Lemma skipn_next {A} (n : nat) (l rest : list A) (x : A) :
  skipn n l = x :: rest -> skipn (S n) l = rest.
Proof.
  intros E. change (S n) with (1 + n). now rewrite <- skipn_skipn, E.
Qed.

Lemma skipn_past {A} (n : nat) (l : list A) :
  skipn n l = [] -> skipn (S n) l = [].
Proof.
  intros E. change (S n) with (1 + n). now rewrite <- skipn_skipn, E.
Qed.

Lemma to_nat_next (i : Z) : (0 <= i)%Z -> Z.to_nat (i + 1) = S (Z.to_nat i).
Proof. lia. Qed.

Lemma to_nat_stay (i : Z) : Z.to_nat (i - 1 + 1) = Z.to_nat i.
Proof. f_equal. lia. Qed.

(** From any state of the cursors, enough passes end the loop with what
    [compareLoop] returns on the rest of the two slices. *)
Lemma cursorLoop_from (sourceObjects destObjects : list (storage.Object U)) :
  forall (fuel : nat) (st : @Cursors U),
    (0 <= iSrc st)%Z -> (0 <= iDst st)%Z ->
    length (skipn (Z.to_nat (iSrc st)) sourceObjects)
    + length (skipn (Z.to_nat (iDst st)) destObjects) < fuel ->
    cursorLoop Separator fuel sourceObjects destObjects st
    = Some (compareLoop Separator
              (skipn (Z.to_nat (iSrc st)) sourceObjects)
              (skipn (Z.to_nat (iDst st)) destObjects)
              (srcOnly st) (dstOnly st) (commonObj st)).
Proof.
  induction fuel as [|fuel IH]; intros st Hs Hd Hm; [lia|].
  cbn [cursorLoop]. unfold cursorStep. rewrite !objectAt_skipn.
  destruct (skipn (Z.to_nat (iSrc st)) sourceObjects) as [|s ss] eqn:ES;
    destruct (skipn (Z.to_nat (iDst st)) destObjects) as [|d ds] eqn:ED;
    cbn [hd_error length] in *.
  - reflexivity.
  - rewrite IH; cbn [iSrc iDst srcOnly dstOnly commonObj]; try lia;
      rewrite ?to_nat_next by assumption;
      rewrite (skipn_past _ _ ES), (skipn_next _ _ ED); [|cbn; lia].
    now rewrite compareLoop_nil_cons.
  - rewrite IH; cbn [iSrc iDst srcOnly dstOnly commonObj]; try lia;
      rewrite ?to_nat_next by assumption;
      rewrite (skipn_next _ _ ES), (skipn_past _ _ ED); [|cbn; lia].
    now rewrite compareLoop_cons_nil.
  - rewrite compareLoop_cons_cons.
    destruct (gostring.gt (objName Separator s) (objName Separator d)).
    + rewrite IH; cbn [iSrc iDst srcOnly dstOnly commonObj]; try lia;
        rewrite ?to_nat_stay, ?to_nat_next by assumption;
        rewrite ES, (skipn_next _ _ ED); [reflexivity|cbn; lia].
    + destruct (gostring.eq (objName Separator s) (objName Separator d)).
      * rewrite IH; cbn [iSrc iDst srcOnly dstOnly commonObj]; try lia;
          rewrite ?to_nat_next by assumption;
          rewrite (skipn_next _ _ ES), (skipn_next _ _ ED);
          [reflexivity|cbn; lia].
      * rewrite IH; cbn [iSrc iDst srcOnly dstOnly commonObj]; try lia;
          rewrite ?to_nat_stay, ?to_nat_next by assumption;
          rewrite (skipn_next _ _ ES), ED; [reflexivity|cbn; lia].
Qed.

(** The loop on its cursors, started as [compareObjects] starts it, ends
    within [len(sourceObjects) + len(destObjects) + 1] passes and returns
    the results of [compareLoop]. *)
Lemma cursorLoop_compareLoop
    (sourceObjects destObjects : list (storage.Object U)) (fuel : nat) :
  length sourceObjects + length destObjects < fuel ->
  cursorLoop Separator fuel sourceObjects destObjects
    {| iSrc := 0; iDst := 0; srcOnly := []; dstOnly := []; commonObj := [] |}
  = Some (compareLoop Separator sourceObjects destObjects [] [] []).
Proof.
  intros Hfuel. now rewrite cursorLoop_from; cbn; try lia.
Qed.

End CursorFacts.

(** * Further properties *)

(** ** [compareObjects], for every listing *)

Section CompareMore.

Context {U : Type} `{url.Ops U}.

Variable Separator : ascii.

Lemma SliceStable_lessRelative_perm (l : list (storage.Object U)) :
  Permutation (sort.SliceStable lessRelative l) l.
Proof. rewrite lessRelative_lessBy. apply SliceStable_perm. Qed.

(** X1.  Nothing is lost and nothing is invented, on any host and for any
    two listings, duplicates or not: the source-only locations together with
    the source halves of the pairs are the locations of the source listing,
    each as often as it is listed, and likewise for the destination. *)
Theorem compareObjects_complete (source dest : list (storage.Object U)) :
  Permutation
    (onlySourceOf (compareObjects Separator source dest)
     ++ map srcURL (commonOf (compareObjects Separator source dest)))
    (map (@storage.URL U) source)
  /\ Permutation
    (onlyDestOf (compareObjects Separator source dest)
     ++ map dstURL (commonOf (compareObjects Separator source dest)))
    (map (@storage.URL U) dest).
Proof.
  unfold compareObjects.
  destruct (compareLoop_complete Separator
              (sort.SliceStable lessRelative source)
              (sort.SliceStable lessRelative dest)) as [Cs Cd].
  split.
  - rewrite Cs. apply Permutation_map, SliceStable_lessRelative_perm.
  - rewrite Cd. apply Permutation_map, SliceStable_lessRelative_perm.
Qed.

Lemma compareLoop_common (s d : list (storage.Object U)) :
  Forall
    (fun p =>
       In (ObjectPair.src p) s /\ In (ObjectPair.dst p) d
       /\ objName Separator (ObjectPair.src p)
          = objName Separator (ObjectPair.dst p))
    (commonOf (compareLoop Separator s d [] [] [])).
Proof.
  apply (compareLoop_ind Separator (fun s d r =>
    Forall
      (fun p =>
         In (ObjectPair.src p) s /\ In (ObjectPair.dst p) d
         /\ objName Separator (ObjectPair.src p)
            = objName Separator (ObjectPair.dst p))
      (commonOf r))); cbn [commonOf snd].
  - constructor.
  - intros d0 ds r IH. eapply Forall_impl; [|exact IH].
    cbn. intros p (P1 & P2 & P3). auto.
  - intros s0 ss r IH. eapply Forall_impl; [|exact IH].
    cbn. intros p (P1 & P2 & P3). auto.
  - intros s0 ss d0 ds r _ IH. eapply Forall_impl; [|exact IH].
    cbn. intros p (P1 & P2 & P3). auto.
  - intros s0 ss d0 ds r _ Heq IH. constructor.
    + cbn. apply eq_true_iff in Heq. auto.
    + eapply Forall_impl; [|exact IH]. cbn. intros p (P1 & P2 & P3). auto.
  - intros s0 ss d0 ds r _ _ IH. eapply Forall_impl; [|exact IH].
    cbn. intros p (P1 & P2 & P3). auto.
Qed.

(** X2.  A pair is never a mismatch: on any host and for any two listings,
    every pair of the common result joins an object of the source listing
    with an object of the destination listing that has the same
    slash-normalized relative path. *)
Theorem compareObjects_common_namesakes (source dest : list (storage.Object U)) :
  Forall
    (fun p =>
       In (ObjectPair.src p) source /\ In (ObjectPair.dst p) dest
       /\ objName Separator (ObjectPair.src p)
          = objName Separator (ObjectPair.dst p))
    (commonOf (compareObjects Separator source dest)).
Proof.
  unfold compareObjects. eapply Forall_impl; [|apply compareLoop_common].
  cbn. intros p (P1 & P2 & P3). repeat split; [| |exact P3].
  - now apply (Permutation_in _ (SliceStable_lessRelative_perm source)).
  - now apply (Permutation_in _ (SliceStable_lessRelative_perm dest)).
Qed.

(** X3.  Where the slash-normalization leaves the relative paths of both
    listings as they are (every listing on a host whose separator is the
    slash; on other hosts the listings without the separator in a relative
    path), and no side lists a relative path twice, no name is in two of the
    three results. *)
Theorem compareObjects_disjoint (source dest : list (storage.Object U)) :
  (forall o, In o (source ++ dest) -> objName Separator o = relativeOf o) ->
  NoDup (map relativeOf source) -> NoDup (map relativeOf dest) ->
  disjointByName Separator (compareObjects Separator source dest).
Proof.
  intros Hagree Hns Hnd.
  destruct (compareObjects_partition Separator source dest Hagree Hns Hnd)
    as (_ & _ & D1 & D2 & D3).
  repeat split; eauto; intros; [eapply D2|eapply D2|eapply D3|eapply D3]; eauto.
Qed.

(** X4.  The loop as [sync.go] writes it, with its two cursors, ends: on the
    sorted listings it leaves through [break] within
    [len(sourceObjects) + len(destObjects) + 1] passes, and returns the
    three results of [compareObjects]. *)
Theorem compareObjects_loop_terminates (source dest : list (storage.Object U))
    (fuel : nat) :
  length source + length dest < fuel ->
  cursorLoop Separator fuel
    (sort.SliceStable lessRelative source)
    (sort.SliceStable lessRelative dest)
    {| iSrc := 0; iDst := 0; srcOnly := []; dstOnly := []; commonObj := [] |}
  = Some (compareObjects Separator source dest).
Proof.
  intros Hfuel. apply cursorLoop_compareLoop.
  now rewrite !(Permutation_length (SliceStable_lessRelative_perm _)).
Qed.

End CompareMore.

Lemma compareObjects_disjoint_witness :
  disjointByName plain.backslash
    (compareObjects plain.backslash
       [plain.src_b; plain.src_a] [plain.dst_old; plain.dst_a]).
Proof.
  apply (@compareObjects_disjoint plain.URL plain.ops plain.backslash
           [plain.src_b; plain.src_a] [plain.dst_old; plain.dst_a]).
  - intros o [<-|[<-|[<-|[<-|[]]]]]; reflexivity.
  - repeat constructor; simpl; intuition discriminate.
  - repeat constructor; simpl; intuition discriminate.
Defined.

Lemma compareObjects_loop_terminates_witness :
  cursorLoop "/" 6
    (sort.SliceStable lessRelative [plain.src_sub_c; plain.src_a; plain.src_b])
    (sort.SliceStable lessRelative [plain.dst_old; plain.dst_a])
    {| iSrc := 0; iDst := 0; srcOnly := []; dstOnly := []; commonObj := [] |}
  = Some
      (compareObjects "/"
         [plain.src_sub_c; plain.src_a; plain.src_b]
         [plain.dst_old; plain.dst_a]).
Proof.
  apply (@compareObjects_loop_terminates plain.URL plain.ops "/"%char
           [plain.src_sub_c; plain.src_a; plain.src_b]
           [plain.dst_old; plain.dst_a] 6).
  simpl. lia.
Defined.

Section CompareOrder.

Context {U : Type} `{url.Ops U}.

Variable Separator : ascii.

Lemma StronglySorted_cons_incl {A} (R : A -> A -> Prop) (a : A)
    (l l' : list A) :
  StronglySorted R (a :: l) -> StronglySorted R l' -> incl l' l ->
  StronglySorted R (a :: l').
Proof.
  intros Hs Hs' Hincl. inversion Hs as [|? ? _ Hall]; subst.
  constructor; [exact Hs'|].
  rewrite Forall_forall in *. intros x Hx. apply Hall, Hincl, Hx.
Qed.

Lemma StronglySorted_tail {A} (R : A -> A -> Prop) (a : A) (l : list A) :
  StronglySorted R (a :: l) -> StronglySorted R l.
Proof. intros Hs. now inversion Hs. Qed.

Lemma StronglySorted_map {A B} (R : B -> B -> Prop) (f : A -> B)
    (l : list A) :
  StronglySorted (fun a b => R (f a) (f b)) l -> StronglySorted R (map f l).
Proof.
  induction 1 as [|a l Hl IH Ha]; cbn; constructor; [exact IH|].
  rewrite Forall_forall in *. intros y Hy.
  apply in_map_iff in Hy. destruct Hy as (x & <- & Hx). now apply Ha.
Qed.

(** Each result of the loop keeps the order of the slice it comes from. *)
Lemma compareLoop_keeps_order (R : U -> U -> Prop)
    (s d : list (storage.Object U)) :
  (incl (onlySourceOf (compareLoop Separator s d [] [] []))
        (map (@storage.URL U) s)
   /\ incl (map srcURL (commonOf (compareLoop Separator s d [] [] [])))
        (map (@storage.URL U) s)
   /\ (StronglySorted R (map (@storage.URL U) s) ->
       StronglySorted R (onlySourceOf (compareLoop Separator s d [] [] []))
       /\ StronglySorted R
            (map srcURL (commonOf (compareLoop Separator s d [] [] [])))))
  /\ (incl (onlyDestOf (compareLoop Separator s d [] [] []))
        (map (@storage.URL U) d)
   /\ incl (map dstURL (commonOf (compareLoop Separator s d [] [] [])))
        (map (@storage.URL U) d)
   /\ (StronglySorted R (map (@storage.URL U) d) ->
       StronglySorted R (onlyDestOf (compareLoop Separator s d [] [] []))
       /\ StronglySorted R
            (map dstURL (commonOf (compareLoop Separator s d [] [] []))))).
Proof.
  apply (compareLoop_ind Separator (fun s d r =>
    (incl (onlySourceOf r) (map (@storage.URL U) s)
     /\ incl (map srcURL (commonOf r)) (map (@storage.URL U) s)
     /\ (StronglySorted R (map (@storage.URL U) s) ->
         StronglySorted R (onlySourceOf r)
         /\ StronglySorted R (map srcURL (commonOf r))))
    /\ (incl (onlyDestOf r) (map (@storage.URL U) d)
     /\ incl (map dstURL (commonOf r)) (map (@storage.URL U) d)
     /\ (StronglySorted R (map (@storage.URL U) d) ->
         StronglySorted R (onlyDestOf r)
         /\ StronglySorted R (map dstURL (commonOf r))))));
    cbn [onlySourceOf onlyDestOf commonOf fst snd map].
  - repeat split; try apply incl_nil_l; constructor.
  - intros d0 ds r [(S1 & S2 & S3) (D1 & D2 & D3)].
    split; [auto|]. split; [|split].
    + apply incl_cons; [now left|now apply incl_tl].
    + now apply incl_tl.
    + intros Hd. destruct (D3 (StronglySorted_tail Hd)) as [Do Dc].
      split; [|exact Dc]. now apply StronglySorted_cons_incl with (map (@storage.URL U) ds).
  - intros s0 ss r [(S1 & S2 & S3) (D1 & D2 & D3)].
    split; [|auto]. split; [|split].
    + apply incl_cons; [now left|now apply incl_tl].
    + now apply incl_tl.
    + intros Hs. destruct (S3 (StronglySorted_tail Hs)) as [So Sc].
      split; [|exact Sc]. now apply StronglySorted_cons_incl with (map (@storage.URL U) ss).
  - intros s0 ss d0 ds r _ [(S1 & S2 & S3) (D1 & D2 & D3)].
    split; [auto|]. split; [|split].
    + apply incl_cons; [now left|now apply incl_tl].
    + now apply incl_tl.
    + intros Hd. destruct (D3 (StronglySorted_tail Hd)) as [Do Dc].
      split; [|exact Dc]. now apply StronglySorted_cons_incl with (map (@storage.URL U) ds).
  - intros s0 ss d0 ds r _ _ [(S1 & S2 & S3) (D1 & D2 & D3)].
    split; (split; [|split]).
    + now apply incl_tl.
    + apply incl_cons; [now left|now apply incl_tl].
    + intros Hs. destruct (S3 (StronglySorted_tail Hs)) as [So Sc].
      split; [exact So|].
      now apply StronglySorted_cons_incl with (map (@storage.URL U) ss).
    + now apply incl_tl.
    + apply incl_cons; [now left|now apply incl_tl].
    + intros Hd. destruct (D3 (StronglySorted_tail Hd)) as [Do Dc].
      split; [exact Do|].
      now apply StronglySorted_cons_incl with (map (@storage.URL U) ds).
  - intros s0 ss d0 ds r _ _ [(S1 & S2 & S3) (D1 & D2 & D3)].
    split; [|auto]. split; [|split].
    + apply incl_cons; [now left|now apply incl_tl].
    + now apply incl_tl.
    + intros Hs. destruct (S3 (StronglySorted_tail Hs)) as [So Sc].
      split; [|exact Sc]. now apply StronglySorted_cons_incl with (map (@storage.URL U) ss).
Qed.

Lemma SliceStable_byRelative (l : list (storage.Object U)) :
  byRelative (map (@storage.URL U) (sort.SliceStable lessRelative l)).
Proof.
  unfold byRelative. apply StronglySorted_map.
  rewrite lessRelative_lessBy. apply (SliceStable_sorted relativeOf).
Qed.

(** X5.  The results come out sorted: for any two listings, in whatever
    order they arrive, the source-only locations, the destination-only
    locations and the pairs (by their source and by their destination) are
    each in ascending order of relative path. *)
Theorem compareObjects_results_sorted (source dest : list (storage.Object U)) :
  byRelative (onlySourceOf (compareObjects Separator source dest))
  /\ byRelative (onlyDestOf (compareObjects Separator source dest))
  /\ byRelative (map srcURL (commonOf (compareObjects Separator source dest)))
  /\ byRelative (map dstURL (commonOf (compareObjects Separator source dest))).
Proof.
  unfold compareObjects.
  destruct (compareLoop_keeps_order
              (fun u v => gostring.lt (url.Relative v) (url.Relative u) = false)
              (sort.SliceStable lessRelative source)
              (sort.SliceStable lessRelative dest))
    as [(_ & _ & S3) (_ & _ & D3)].
  destruct (S3 (SliceStable_byRelative source)) as [So Sc].
  destruct (D3 (SliceStable_byRelative dest)) as [Do Dc].
  repeat split; assumption.
Qed.

End CompareOrder.

(** ** The skip filter, for every object *)

Section SkipMore.

Context {U StorageOpts : Type} `{storage.Printer U}.

Lemma shouldSkipObject_verdict (s : Sync.t StorageOpts)
    (object : storage.Object U) (verbose : bool) :
  out.value (shouldSkipObject s object verbose) = negb (eligible object).
Proof.
  unfold shouldSkipObject, eligible.
  destruct (storage.IsDir (storage.Type_ object)); [reflexivity|].
  destruct (storage.Err object) as [err|]; cbn.
  - destruct (errorpkg.cancelation err); [reflexivity|]. now destruct verbose.
  - destruct (storage.IsGlacier (storage.Class object)); [|reflexivity].
    now destruct verbose.
Qed.

(** X6.  Whether an object is skipped depends on the object alone, not on
    the side it was listed on or on the command: an object is kept exactly
    when it is not a directory, carries no error and is not in the Glacier
    storage class. *)
Theorem shouldSkipObject_same_verdict (s s' : Sync.t StorageOpts)
    (object : storage.Object U) (verbose verbose' : bool) :
  out.value (shouldSkipObject s object verbose)
  = out.value (shouldSkipObject s' object verbose')
  /\ (out.value (shouldSkipObject s object verbose) = false
      <-> storage.IsDir (storage.Type_ object) = false
          /\ storage.Err object = None
          /\ storage.IsGlacier (storage.Class object) = false).
Proof.
  split; [now rewrite !shouldSkipObject_verdict|].
  rewrite shouldSkipObject_verdict. unfold eligible.
  destruct (storage.IsDir (storage.Type_ object));
    destruct (storage.Err object) as [err|];
    destruct (storage.IsGlacier (storage.Class object)); cbn;
    try destruct (errorpkg.cancelation err); cbn;
    intuition discriminate.
Qed.

Lemma shouldSkipObject_quiet (s : Sync.t StorageOpts)
    (object : storage.Object U) :
  out.events (shouldSkipObject s object false) = [].
Proof.
  unfold shouldSkipObject.
  destruct (storage.IsDir (storage.Type_ object)); [reflexivity|].
  destruct (storage.Err object) as [err|]; cbn.
  - now destruct (errorpkg.cancelation err).
  - now destruct (storage.IsGlacier (storage.Class object)).
Qed.

(** X7.  The destination side is silent: with [verbose] false nothing is
    reported, for any object - directory, listing error, cancellation or
    Glacier. *)
Theorem shouldSkipObject_destination_silent (s : Sync.t StorageOpts)
    (object : storage.Object U) :
  out.events (shouldSkipObject s object false) = [].
Proof. apply shouldSkipObject_quiet. Qed.

Lemma shouldSkipObject_report_bound (s : Sync.t StorageOpts)
    (object : storage.Object U) (verbose : bool) :
  length (out.events (shouldSkipObject s object verbose))
  <= (if out.value (shouldSkipObject s object verbose) then 1 else 0).
Proof.
  unfold shouldSkipObject.
  destruct (storage.IsDir (storage.Type_ object)); [cbn; lia|].
  destruct (storage.Err object) as [err|]; cbn.
  - destruct (errorpkg.cancelation err); destruct verbose; cbn; lia.
  - destruct (storage.IsGlacier (storage.Class object)); destruct verbose;
      cbn; lia.
Qed.

(** X8.  An object that is kept is never reported, and a skipped object is
    reported at most once. *)
Theorem shouldSkipObject_reports_only_skipped (s : Sync.t StorageOpts)
    (object : storage.Object U) (verbose : bool) :
  length (out.events (shouldSkipObject s object verbose))
  <= (if out.value (shouldSkipObject s object verbose) then 1 else 0).
Proof. apply shouldSkipObject_report_bound. Qed.

(** X9.  Directories and objects whose error is a cancellation are skipped
    without a report, on the source side too. *)
Theorem shouldSkipObject_silent_skips (s : Sync.t StorageOpts)
    (object : storage.Object U) (verbose : bool) :
  storage.IsDir (storage.Type_ object) = true
  \/ errorpkg.IsCancelation (storage.Err object) = true ->
  shouldSkipObject s object verbose = (true, []).
Proof.
  unfold shouldSkipObject. intros [-> | ->]; [reflexivity|].
  now rewrite orb_true_r.
Qed.

(** X10.  A file whose listing failed with an error that is no cancellation
    is skipped, and on the source side ([verbose] true) that error itself is
    reported, once; its storage class plays no part. *)
Theorem shouldSkipObject_listing_error (s : Sync.t StorageOpts)
    (object : storage.Object U) (err : errorpkg.error) :
  storage.IsDir (storage.Type_ object) = false ->
  storage.Err object = Some err ->
  errorpkg.cancelation err = false ->
  shouldSkipObject s object true
  = (true, [out.printError (Sync.fullCommand s) (Sync.op s) err]).
Proof.
  intros Hdir Herr Hc. unfold shouldSkipObject.
  rewrite Hdir, Herr. cbn. now rewrite Hc.
Qed.

(** The reports of a listing are those of its objects, in order. *)
Lemma collectObjects_events (s : Sync.t StorageOpts) (verbose : bool)
    (channel objects : list (storage.Object U)) :
  out.events (collectObjects s verbose channel objects)
  = flat_map (fun o => out.events (shouldSkipObject s o verbose)) channel.
Proof.
  revert objects. induction channel as [|o rest IH]; intros objects.
  - reflexivity.
  - cbn [collectObjects flat_map]. rewrite events_bind. f_equal.
    destruct (out.value (shouldSkipObject s o verbose)); apply IH.
Qed.

Lemma collectObjects_kept (s : Sync.t StorageOpts) (verbose : bool)
    (channel objects : list (storage.Object U)) :
  out.value (collectObjects s verbose channel objects)
  = objects ++ filter eligible channel.
Proof.
  revert objects. induction channel as [|o rest IH]; intros objects.
  - cbn. now rewrite app_nil_r.
  - cbn [collectObjects filter].
    assert (Hv : forall A B (m : out.M U A) (k : A -> out.M U B),
               out.value (out.bind m k) = out.value (k (out.value m))).
    { intros A B [a w] k. unfold out.bind, out.value. cbn. now destruct (k a). }
    rewrite Hv, shouldSkipObject_verdict.
    destruct (eligible o); cbn [negb]; rewrite IH; [|reflexivity].
    now rewrite <- app_assoc.
Qed.

Lemma collectObjects_pair (s : Sync.t StorageOpts) (verbose : bool)
    (channel objects : list (storage.Object U)) :
  collectObjects s verbose channel objects
  = (objects ++ filter eligible channel,
     flat_map (fun o => out.events (shouldSkipObject s o verbose)) channel).
Proof.
  rewrite <- collectObjects_kept with (s := s) (verbose := verbose).
  rewrite <- collectObjects_events with (objects := objects).
  now destruct (collectObjects s verbose channel objects).
Qed.

Lemma eligible_no_report (s : Sync.t StorageOpts) (verbose : bool)
    (l : list (storage.Object U)) :
  Forall (fun o => eligible o = true) l ->
  flat_map (fun o => out.events (shouldSkipObject s o verbose)) l = [].
Proof.
  induction 1 as [|o l Ho _ IH]; [reflexivity|]. cbn. rewrite IH, app_nil_r.
  pose proof (shouldSkipObject_report_bound s o verbose) as Hlen.
  rewrite shouldSkipObject_verdict, Ho in Hlen. cbn in Hlen.
  destruct (out.events (shouldSkipObject s o verbose)); [reflexivity|].
  cbn in Hlen. lia.
Qed.

(** X11.  The skip filter is idempotent: listing again what one pass has
    kept, on either side, keeps all of it in the same order and reports
    nothing. *)
Theorem collectObjects_idempotent (s : Sync.t StorageOpts)
    (verbose verbose' : bool) (channel : list (storage.Object U)) :
  collectObjects s verbose'
    (out.value (collectObjects s verbose channel [])) []
  = (out.value (collectObjects s verbose channel []), []).
Proof.
  rewrite collectObjects_kept. cbn [app].
  rewrite collectObjects_pair. cbn [app]. f_equal.
  - induction channel as [|o rest IH]; [reflexivity|]. cbn.
    destruct (eligible o) eqn:E; [|exact IH]. cbn. now rewrite E, IH.
  - apply eligible_no_report. apply Forall_forall.
    intros o Ho. now apply filter_In in Ho.
Qed.

End SkipMore.

Lemma shouldSkipObject_silent_skips_witness :
  shouldSkipObject (plain.sync false true "s3://bucket/" [])
    (fixture.cancelled (plain.local "dir/a.txt" "a.txt")) true
  = (true, []).
Proof.
  apply (@shouldSkipObject_silent_skips plain.URL plain.Client plain.printer
           (plain.sync false true "s3://bucket/" [])
           (fixture.cancelled (plain.local "dir/a.txt" "a.txt")) true).
  right. reflexivity.
Defined.

Lemma shouldSkipObject_listing_error_witness :
  shouldSkipObject (plain.sync false true "s3://bucket/" [])
    (fixture.failed (plain.local "dir/a.txt" "a.txt") "permission denied") true
  = (true,
     [out.printError "sync dir/ s3://bucket/" "sync"
        {| errorpkg.Error := "permission denied";
           errorpkg.cancelation := false |}]).
Proof.
  apply (@shouldSkipObject_listing_error plain.URL plain.Client plain.printer
           (plain.sync false true "s3://bucket/" [])
           (fixture.failed (plain.local "dir/a.txt" "a.txt") "permission denied")
           {| errorpkg.Error := "permission denied";
              errorpkg.cancelation := false |});
    reflexivity.
Defined.

(** ** The two listings, further *)

Section StringFacts.

Lemma append_assoc (a b c : string) :
  ((a ++ b) ++ c)%string = (a ++ (b ++ c))%string.
Proof. induction a as [|x a IH]; cbn; [reflexivity|now rewrite IH]. Qed.

(** A string with the suffix ["/"] is some string followed by ["/"]. *)
Lemma HasSuffix_slash (s : string) :
  strings.HasSuffix s "/" = true -> exists p, s = (p ++ "/")%string.
Proof.
  unfold strings.HasSuffix. cbn [String.length].
  intros Hs. apply andb_true_iff in Hs. destruct Hs as [Hlen Heq].
  apply Nat.leb_le in Hlen. apply String.eqb_eq in Heq.
  revert Hlen Heq. induction s as [|c s IH]; cbn [String.length]; [lia|].
  intros _. rewrite Nat.sub_succ, Nat.sub_0_r.
  destruct s as [|c' s'].
  - cbn. intros E. exists ""%string. cbn. congruence.
  - cbn [String.length String.substring]. intros E.
    destruct IH as [p Hp].
    + cbn [String.length]. lia.
    + cbn [String.length]. now rewrite Nat.sub_succ, Nat.sub_0_r.
    + exists (String c p). cbn. now rewrite <- Hp.
Qed.

(** A string followed by ["/"] has the suffix ["/"]. *)
Lemma HasSuffix_append_slash (p : string) :
  strings.HasSuffix (p ++ "/")%string "/" = true.
Proof.
  unfold strings.HasSuffix. cbn [String.length].
  induction p as [|c p IH]; [reflexivity|].
  cbn [String.append String.length]. rewrite Nat.sub_succ, Nat.sub_0_r.
  apply andb_true_iff in IH. destruct IH as [Hlen IH].
  apply Nat.leb_le in Hlen. apply andb_true_iff. split; [reflexivity|].
  destruct (String.length (p ++ "/")%string) as [|n] eqn:En; [lia|].
  cbn [String.substring]. rewrite Nat.sub_succ, Nat.sub_0_r in IH.
  exact IH.
Qed.

End StringFacts.

Section ListingMore.

Context {U Client StorageOpts : Type}.
Context `{url.Ops U} `{storage.Printer U} `{Externals U Client StorageOpts}.

(** X12.  The pattern of the destination listing: a destination that ends
    in a slash gets the star alone, so the slash is not doubled; every
    other destination gets a slash and the star.  Either way the pattern
    ends in ["/*"]. *)
Theorem destinationURLPath_pattern (s : Sync.t StorageOpts) :
  (forall p, Sync.dst s = (p ++ "/")%string ->
     destinationURLPath s = (p ++ "/*")%string)
  /\ ((forall p, Sync.dst s <> (p ++ "/")%string) ->
      destinationURLPath s = (Sync.dst s ++ "/*")%string)
  /\ exists prefix, destinationURLPath s = (prefix ++ "/*")%string.
Proof.
  unfold destinationURLPath. split; [|split].
  - intros p Hp. rewrite Hp, HasSuffix_append_slash. apply append_assoc.
  - intros Hno. destruct (strings.HasSuffix (Sync.dst s) "/") eqn:E;
      [|reflexivity].
    destruct (HasSuffix_slash _ E) as [p Hp]. now destruct (Hno p).
  - destruct (strings.HasSuffix (Sync.dst s) "/") eqn:E.
    + destruct (HasSuffix_slash _ E) as [p Hp]. exists p.
      rewrite Hp. apply append_assoc.
    + now exists (Sync.dst s).
Qed.

(** X13.  When the client of the source or of the destination cannot be
    created, that error is returned, nothing is listed and nothing is
    reported. *)
Theorem getSourceAndDestinationObjects_no_client (s : Sync.t StorageOpts)
    (srcurl dsturl : U) (err : errorpkg.error) :
  NewClient srcurl (Sync.storageOpts s) = inr err
  \/ (exists sourceClient,
        NewClient srcurl (Sync.storageOpts s) = inl sourceClient
        /\ NewClient dsturl (Sync.storageOpts s) = inr err) ->
  getSourceAndDestinationObjects s srcurl dsturl = (inr err, []).
Proof.
  unfold getSourceAndDestinationObjects.
  intros [-> | (sourceClient & -> & ->)]; reflexivity.
Qed.

(** X14.  Only the source side reports: when both listings are made, the
    output of the step is what the skip filter reports for the objects of
    the source listing, in listing order; the destination listing adds
    nothing, whatever it holds. *)
Theorem getSourceAndDestinationObjects_reports (s : Sync.t StorageOpts)
    (srcurl dsturl destObjectsURL : U) (sourceClient destClient : Client) :
  NewClient srcurl (Sync.storageOpts s) = inl sourceClient ->
  NewClient dsturl (Sync.storageOpts s) = inl destClient ->
  url_New (destinationURLPath s) false = inl destObjectsURL ->
  out.events (getSourceAndDestinationObjects s srcurl dsturl)
  = flat_map (fun o => out.events (shouldSkipObject s o true))
      (List sourceClient srcurl (Sync.followSymlinks s)).
Proof.
  intros Hsrc Hdst Hurl. unfold getSourceAndDestinationObjects.
  rewrite Hsrc, Hdst. cbv zeta. rewrite Hurl, !events_bind.
  rewrite !collectObjects_events. cbn [out.events out.ret snd].
  rewrite app_nil_r.
  assert (Hsilent : forall l : list (storage.Object U),
             flat_map (fun o => out.events (shouldSkipObject s o false)) l = []).
  { induction l as [|o l IH]; [reflexivity|]. cbn.
    now rewrite shouldSkipObject_quiet, IH. }
  now rewrite Hsilent, app_nil_r.
Qed.

(** When the pattern of the destination listing does not parse, the step
    returns that error with the source listing still running: its output is
    what the skip filter reports for the objects the source goroutine has
    handled by then, the first [handledAtReturn] of its channel. *)
Lemma getSourceAndDestinationObjects_pattern_error (s : Sync.t StorageOpts)
    (srcurl dsturl : U) (sourceClient destClient : Client)
    (err : errorpkg.error) :
  NewClient srcurl (Sync.storageOpts s) = inl sourceClient ->
  NewClient dsturl (Sync.storageOpts s) = inl destClient ->
  url_New (destinationURLPath s) false = inr err ->
  getSourceAndDestinationObjects s srcurl dsturl
  = (inr err,
     flat_map (fun o => out.events (shouldSkipObject s o true))
       (firstn
          (handledAtReturn (List sourceClient srcurl (Sync.followSymlinks s)))
          (List sourceClient srcurl (Sync.followSymlinks s)))).
Proof.
  intros Hsrc Hdst Hurl. unfold getSourceAndDestinationObjects.
  rewrite Hsrc, Hdst. cbv zeta. rewrite Hurl, collectObjects_pair.
  cbn [out.bind out.ret app]. now rewrite app_nil_r.
Qed.

End ListingMore.

Lemma getSourceAndDestinationObjects_no_client_witness :
  @getSourceAndDestinationObjects plain.URL plain.Client plain.Client
    plain.printer fixture.offline
    (fixture.syncOf "dir/" "s3://bucket/" false
       [(plain.src_a, false); (fixture.failed (plain.local "dir/x" "x") "denied", false)])
    (plain.local "dir/" "") (plain.s3 "bucket" "" "")
  = (inr {| errorpkg.Error := "no credentials";
            errorpkg.cancelation := false |}, []).
Proof.
  apply (@getSourceAndDestinationObjects_no_client plain.URL plain.Client
           plain.Client plain.printer fixture.offline).
  right. eexists. split; reflexivity.
Defined.

Lemma getSourceAndDestinationObjects_reports_witness :
  out.events
    (getSourceAndDestinationObjects
       (fixture.syncOf "dir/" "s3://bucket/" false
          [(plain.src_a, false);
           (fixture.failed (plain.local "dir/x" "x") "denied", false);
           (fixture.directory (plain.local "dir/sub/" "sub/"), false)])
       (plain.local "dir/" "") (plain.s3 "bucket" "" ""))
  = [out.printError "sync dir/ s3://bucket/" "sync"
       {| errorpkg.Error := "denied"; errorpkg.cancelation := false |}].
Proof.
  exact (@getSourceAndDestinationObjects_reports plain.URL plain.Client
           plain.Client plain.printer plain.externals
           (fixture.syncOf "dir/" "s3://bucket/" false
              [(plain.src_a, false);
               (fixture.failed (plain.local "dir/x" "x") "denied", false);
               (fixture.directory (plain.local "dir/sub/" "sub/"), false)])
           (plain.local "dir/" "") (plain.s3 "bucket" "" "")
           (plain.s3 "bucket" "*" "")
           [(plain.src_a, false);
            (fixture.failed (plain.local "dir/x" "x") "denied", false);
            (fixture.directory (plain.local "dir/sub/" "sub/"), false)]
           [(plain.src_a, false);
            (fixture.failed (plain.local "dir/x" "x") "denied", false);
            (fixture.directory (plain.local "dir/sub/" "sub/"), false)]
           eq_refl eq_refl eq_refl).
Defined.

(** ** The plan emitter, further *)

Section PlanMore.

Context {U Client StorageOpts : Type}.
Context `{url.Ops U} `{Externals U Client StorageOpts}.

Lemma planOnlySource_one (s : Sync.t StorageOpts) (c : cli.Context)
    (dsturl : U) (isBatch : bool) (srcurl : U) :
  exists e, out.events (planOnlySource s c dsturl isBatch srcurl) = [e]
            /\ e <> out.Close.
Proof.
  unfold planOnlySource.
  destruct (generateCommand c "cp" defaultFlags _); eexists;
    (split; [reflexivity|discriminate]).
Qed.

Lemma planCommon_one (s : Sync.t StorageOpts) (c : cli.Context)
    (strategy : SyncStrategy U) (p : ObjectPair.t U) :
  exists e, out.events (planCommon s c strategy p) = [e] /\ e <> out.Close.
Proof.
  rewrite planCommon_events.
  destruct (ShouldSync strategy _ _);
    [|destruct (generateCommand c "cp" defaultFlags _)]; eexists;
    (split; [reflexivity|discriminate]).
Qed.

Lemma flat_map_one {A B} (f : A -> list B) (P : B -> Prop) (xs : list A) :
  (forall x, exists e, f x = [e] /\ P e) ->
  length (flat_map f xs) = length xs /\ Forall P (flat_map f xs).
Proof.
  intros Hone. induction xs as [|x xs [IHl IHp]]; [split; constructor|].
  destruct (Hone x) as (e & He & HP). cbn. rewrite He. cbn.
  split; [now rewrite IHl|now constructor].
Qed.

Lemma planOnlyDest_count (s : Sync.t StorageOpts) (c : cli.Context)
    (onlyDest : list U) :
  length (out.events (planOnlyDest s c onlyDest)) = deleteSteps s onlyDest
  /\ Forall (fun e => e <> out.Close) (out.events (planOnlyDest s c onlyDest)).
Proof.
  rewrite planOnlyDest_events. unfold deleteSteps.
  destruct (Sync.delete s); [|split; constructor].
  destruct onlyDest as [|u rest]; [split; constructor|].
  destruct (generateCommand c "rm" defaultFlags (u :: rest));
    (split; [reflexivity|repeat constructor; discriminate]).
Qed.

End PlanMore.

Section PlanCounts.

Context {U Client StorageOpts : Type}.
Context `{url.Ops U} `{Externals U Client StorageOpts}.

Lemma written_length_le (w : list (out.Event U)) :
  length (out.written w) <= length w.
Proof.
  induction w as [|e w IH]; [constructor|]. destruct e; cbn; lia.
Qed.

Lemma planRun_shape (s : Sync.t StorageOpts) (c : cli.Context)
    (onlySource onlyDest : list U) (common : list (ObjectPair.t U))
    (dsturl : U) (strategy : SyncStrategy U) (isBatch : bool) :
  exists w,
    out.events
      (planRun s c onlySource onlyDest common dsturl strategy isBatch)
    = w ++ [out.Close]
    /\ Forall (fun e => e <> out.Close) w
    /\ length w
       = length onlySource + length common + deleteSteps s onlyDest.
Proof.
  rewrite planRun_events.
  destruct (flat_map_one
              (fun u => out.events (planOnlySource s c dsturl isBatch u))
              (fun e => e <> out.Close) onlySource
              (planOnlySource_one s c dsturl isBatch)) as [L1 F1].
  destruct (flat_map_one
              (fun p => out.events (planCommon s c strategy p))
              (fun e => e <> out.Close) common
              (planCommon_one s c strategy)) as [L2 F2].
  destruct (planOnlyDest_count s c onlyDest) as [L3 F3].
  eexists. split; [now rewrite !app_assoc|]. split.
  - rewrite !Forall_app. auto.
  - rewrite !length_app. lia.
Qed.

(** X15.  The pipe is closed exactly once, and last: the plan ends with the
    close of the pipe and nothing before it closes it, whether commands
    were generated or refused. *)
Theorem planRun_closes_last (s : Sync.t StorageOpts) (c : cli.Context)
    (onlySource onlyDest : list U) (common : list (ObjectPair.t U))
    (dsturl : U) (strategy : SyncStrategy U) (isBatch : bool) :
  exists w,
    out.events
      (planRun s c onlySource onlyDest common dsturl strategy isBatch)
    = w ++ [out.Close]
    /\ Forall (fun e => e <> out.Close) w.
Proof.
  destruct (planRun_shape s c onlySource onlyDest common dsturl strategy
              isBatch) as (w & Hw & Hf & _).
  now exists w.
Qed.

(** X16.  Nothing is dropped without a trace: every source-only location,
    every pair and the delete step leave exactly one event (a command or a
    debug trace) before the close of the pipe, so the commands written are
    at most one per source-only location, one per pair and one delete. *)
Theorem planRun_accounts_for_all (s : Sync.t StorageOpts) (c : cli.Context)
    (onlySource onlyDest : list U) (common : list (ObjectPair.t U))
    (dsturl : U) (strategy : SyncStrategy U) (isBatch : bool) :
  length
    (out.events
       (planRun s c onlySource onlyDest common dsturl strategy isBatch))
  = length onlySource + length common + deleteSteps s onlyDest + 1
  /\ length
       (out.written
          (out.events
             (planRun s c onlySource onlyDest common dsturl strategy isBatch)))
     <= length onlySource + length common + deleteSteps s onlyDest.
Proof.
  destruct (planRun_shape s c onlySource onlyDest common dsturl strategy
              isBatch) as (w & Hw & _ & Hl).
  rewrite Hw, length_app, written_app. cbn. rewrite app_nil_r.
  split; [lia|]. rewrite <- Hl. apply written_length_le.
Qed.

(** X17.  With a command generator that refuses nothing, the plan holds
    exactly one copy per source-only location, one copy per pair that the
    strategy wants synchronized, and the delete step. *)
Theorem planRun_command_count (s : Sync.t StorageOpts) (c : cli.Context)
    (onlySource onlyDest : list U) (common : list (ObjectPair.t U))
    (dsturl : U) (strategy : SyncStrategy U) (isBatch : bool) :
  (forall cmd flags urls,
     exists command, generateCommand c cmd flags urls = inl command) ->
  length
    (out.written
       (out.events
          (planRun s c onlySource onlyDest common dsturl strategy isBatch)))
  = length onlySource
    + length (filter (needsSync strategy) common)
    + deleteSteps s onlyDest.
Proof.
  intros Htotal.
  rewrite planRun_events, !written_app, !length_app, !written_flat_map.
  cbn [out.written length]. rewrite Nat.add_0_r, Nat.add_assoc.
  f_equal; [f_equal|].
  - induction onlySource as [|u rest IH]; [reflexivity|].
    cbn [flat_map]. rewrite length_app, IH. unfold planOnlySource.
    destruct (Htotal "cp" defaultFlags
                [u; generateDestinationURL u dsturl isBatch]) as [line ->].
    reflexivity.
  - induction common as [|p rest IH]; [reflexivity|].
    cbn [flat_map filter]. rewrite length_app, IH, planCommon_events.
    unfold needsSync.
    destruct (ShouldSync strategy _ _); [reflexivity|].
    destruct (Htotal "cp" defaultFlags [srcURL p; dstURL p]) as [line ->].
    reflexivity.
  - rewrite planOnlyDest_events. unfold deleteSteps.
    destruct (Sync.delete s); [|reflexivity].
    destruct onlyDest as [|u rest]; [reflexivity|].
    now destruct (Htotal "rm" defaultFlags (u :: rest)) as [line ->].
Qed.

(** X18.  A destination that is in sync gets an empty plan: when nothing is
    source-only, the strategy finds every pair in sync and the delete flag
    is not set, no command is written, whatever is destination-only. *)
Theorem planRun_in_sync_writes_nothing (s : Sync.t StorageOpts)
    (c : cli.Context) (onlyDest : list U) (common : list (ObjectPair.t U))
    (dsturl : U) (strategy : SyncStrategy U) (isBatch : bool) :
  Forall (fun p => needsSync strategy p = false) common ->
  Sync.delete s = false ->
  out.written
    (out.events (planRun s c [] onlyDest common dsturl strategy isBatch))
  = [].
Proof.
  intros Hsync Hdel.
  rewrite planRun_events, !written_app, !written_flat_map.
  rewrite planOnlyDest_events, Hdel. cbn [flat_map out.written app].
  rewrite app_nil_r.
  induction Hsync as [|p rest Hp _ IH]; [reflexivity|].
  cbn [flat_map]. rewrite IH, app_nil_r, planCommon_events.
  unfold needsSync in Hp.
  now destruct (ShouldSync strategy _ _).
Qed.

End PlanCounts.

Lemma planRun_command_count_witness :
  length
    (out.written
       (out.events
          (planRun (plain.sync true true "s3://bucket/" []) (plain.context false)
             [storage.URL plain.src_b; storage.URL plain.src_sub_c]
             [storage.URL plain.dst_old]
             [{| ObjectPair.src := plain.src_a; ObjectPair.dst := plain.dst_a |}]
             (plain.s3 "bucket" "" "") plain.alwaysSync true)))
  = 4.
Proof.
  apply (@planRun_command_count plain.URL plain.Client plain.Client
           plain.ops plain.externals
           (plain.sync true true "s3://bucket/" []) (plain.context false)
           [storage.URL plain.src_b; storage.URL plain.src_sub_c]
           [storage.URL plain.dst_old]
           [{| ObjectPair.src := plain.src_a; ObjectPair.dst := plain.dst_a |}]
           (plain.s3 "bucket" "" "") plain.alwaysSync true).
  intros cmd flags urls. eexists. reflexivity.
Defined.

Lemma planRun_in_sync_writes_nothing_witness :
  out.written
    (out.events
       (planRun (plain.sync false true "s3://bucket/" []) (plain.context false)
          [] [storage.URL plain.dst_old]
          [{| ObjectPair.src := plain.src_a; ObjectPair.dst := plain.dst_a |}]
          (plain.s3 "bucket" "" "") plain.neverSync true))
  = [].
Proof.
  apply (@planRun_in_sync_writes_nothing plain.URL plain.Client plain.Client
           plain.ops plain.externals
           (plain.sync false true "s3://bucket/" []) (plain.context false)
           [storage.URL plain.dst_old]
           [{| ObjectPair.src := plain.src_a; ObjectPair.dst := plain.dst_a |}]
           (plain.s3 "bucket" "" "") plain.neverSync true).
  - repeat constructor.
  - reflexivity.
Defined.

(** ** [Sync.Run] *)

Section RunFacts.

Context {U Client StorageOpts : Type}.
Context `{url.Ops U} `{storage.Printer U} `{Externals U Client StorageOpts}.
Context `{RunExternals U Client}.

Variable Separator : ascii.

(** X19.  [Sync.Run] stops before any listing when the source or the
    destination is malformed or the client of the source cannot be created:
    it returns that error alone, reports nothing and hands nothing to the
    command runner. *)
Theorem Run_stops_before_listing (s : Sync.t StorageOpts) (c : cli.Context)
    (merrorWaiter : list errorpkg.error) (err : errorpkg.error) :
  url_New (Sync.src s) (Sync.raw s) = inr err
  \/ (exists srcurl,
        url_New (Sync.src s) (Sync.raw s) = inl srcurl
        /\ (url_New (Sync.dst s) (Sync.raw s) = inr err
            \/ exists dsturl,
                 url_New (Sync.dst s) (Sync.raw s) = inl dsturl
                 /\ NewClient srcurl (Sync.storageOpts s) = inr err)) ->
  Run Separator s c merrorWaiter = (Some [err], []).
Proof.
  unfold Run.
  intros [-> | (srcurl & -> & [-> | (dsturl & -> & ->)])]; reflexivity.
Qed.

(** X20.  When the listing step fails, [Sync.Run] returns the error of the
    step alone: no plan is made and what the aggregator has gathered is
    left out.  When the step fails because the client of the destination
    cannot be created - before either listing is started - the output is
    that error, printed once, and nothing else. *)
Theorem Run_listing_failure (s : Sync.t StorageOpts) (c : cli.Context)
    (merrorWaiter : list errorpkg.error) (err : errorpkg.error)
    (srcurl dsturl : U) (sourceClient : Client) :
  url_New (Sync.src s) (Sync.raw s) = inl srcurl ->
  url_New (Sync.dst s) (Sync.raw s) = inl dsturl ->
  NewClient srcurl (Sync.storageOpts s) = inl sourceClient ->
  (out.value (getSourceAndDestinationObjects s srcurl dsturl) = inr err ->
   out.value (Run Separator s c merrorWaiter) = Some [err])
  /\ (NewClient dsturl (Sync.storageOpts s) = inr err ->
      Run Separator s c merrorWaiter
      = (Some [err],
         [out.printError (Sync.fullCommand s) (Sync.op s) err])).
Proof.
  intros Hsrc Hdst Hclient. unfold Run. rewrite Hsrc, Hdst, Hclient. split.
  - intros Hlist.
    destruct (getSourceAndDestinationObjects s srcurl dsturl) as [v w].
    cbn in Hlist. subst v. reflexivity.
  - intros Hd. unfold getSourceAndDestinationObjects.
    now rewrite Hclient, Hd.
Qed.

Lemma getSourceAndDestinationObjects_success (s : Sync.t StorageOpts)
    (srcurl dsturl destObjectsURL : U) (sourceClient destClient : Client) :
  NewClient srcurl (Sync.storageOpts s) = inl sourceClient ->
  NewClient dsturl (Sync.storageOpts s) = inl destClient ->
  url_New (destinationURLPath s) false = inl destObjectsURL ->
  getSourceAndDestinationObjects s srcurl dsturl
  = (inl (filter eligible (List sourceClient srcurl (Sync.followSymlinks s)),
          filter eligible (List destClient destObjectsURL false)),
     flat_map (fun o => out.events (shouldSkipObject s o true))
       (List sourceClient srcurl (Sync.followSymlinks s))).
Proof.
  intros Hsrc Hdst Hurl. unfold getSourceAndDestinationObjects.
  rewrite Hsrc, Hdst. cbv zeta. rewrite Hurl, !collectObjects_pair.
  cbn [out.bind out.ret app].
  rewrite app_nil_r. f_equal.
  assert (Hsilent : forall l : list (storage.Object U),
             flat_map (fun o => out.events (shouldSkipObject s o false)) l = []).
  { induction l as [|o l IH]; [reflexivity|]. cbn.
    now rewrite shouldSkipObject_quiet, IH. }
  now rewrite Hsilent, app_nil_r.
Qed.

(** X21.  [Sync.Run] end to end, when both locations parse and both clients
    exist: only the objects that pass the skip filter are compared; the
    command runner receives the lines that the plan for their three
    partitions writes; the output is the reports of the source listing
    followed by the plan; and the result is [nil] exactly when neither the
    runner nor the aggregator has an error. *)
Theorem Run_end_to_end (s : Sync.t StorageOpts) (c : cli.Context)
    (merrorWaiter : list errorpkg.error)
    (srcurl dsturl destObjectsURL : U) (sourceClient destClient : Client) :
  url_New (Sync.src s) (Sync.raw s) = inl srcurl ->
  url_New (Sync.dst s) (Sync.raw s) = inl dsturl ->
  NewClient srcurl (Sync.storageOpts s) = inl sourceClient ->
  NewClient dsturl (Sync.storageOpts s) = inl destClient ->
  url_New (destinationURLPath s) false = inl destObjectsURL ->
  let partitions :=
    compareObjects Separator
      (filter eligible (List sourceClient srcurl (Sync.followSymlinks s)))
      (filter eligible (List destClient destObjectsURL false)) in
  let plan :=
    planRun s c (onlySourceOf partitions) (onlyDestOf partitions)
      (commonOf partitions) dsturl (NewStrategy (Sync.sizeOnly s))
      (isBatchOf sourceClient srcurl) in
  Run Separator s c merrorWaiter
  = (multierror.ErrorOrNil
       (runCommands c (out.written (out.events plan)) ++ merrorWaiter),
     flat_map (fun o => out.events (shouldSkipObject s o true))
       (List sourceClient srcurl (Sync.followSymlinks s))
     ++ out.events plan)
  /\ (out.value (Run Separator s c merrorWaiter) = None
      <-> runCommands c (out.written (out.events plan)) = []
          /\ merrorWaiter = []).
Proof.
  intros Hsrc Hdst Hcs Hcd Hurl partitions plan.
  assert (HRun :
    Run Separator s c merrorWaiter
    = (multierror.ErrorOrNil
         (runCommands c (out.written (out.events plan)) ++ merrorWaiter),
       flat_map (fun o => out.events (shouldSkipObject s o true))
         (List sourceClient srcurl (Sync.followSymlinks s))
       ++ out.events plan)).
  { unfold Run. rewrite Hsrc, Hdst, Hcs.
    rewrite (getSourceAndDestinationObjects_success s srcurl dsturl Hcs Hcd Hurl).
    subst plan partitions. cbn [out.bind].
    destruct (compareObjects Separator _ _) as [[onlySource onlyDest] common].
    cbn [onlySourceOf onlyDestOf commonOf fst snd].
    destruct (planRun s c onlySource onlyDest common dsturl _ _) as [[] w].
    cbn. now rewrite app_nil_r. }
  split; [exact HRun|].
  rewrite HRun. cbn [out.value fst]. unfold multierror.ErrorOrNil.
  destruct (runCommands c (out.written (out.events plan))) as [|e es];
    [destruct merrorWaiter|]; cbn; intuition discriminate.
Qed.

End RunFacts.

Lemma Run_stops_before_listing_witness :
  Run "/" (fixture.syncOf "" "s3://bucket/" false []) (plain.context false) []
  = (Some [{| errorpkg.Error := "url cannot be empty";
              errorpkg.cancelation := false |}], []).
Proof.
  apply (@Run_stops_before_listing plain.URL plain.Client plain.Client
           plain.ops plain.printer plain.externals fixture.run "/"%char
           (fixture.syncOf "" "s3://bucket/" false []) (plain.context false) []).
  left. reflexivity.
Defined.

Lemma Run_listing_failure_witness :
  @Run plain.URL plain.Client plain.Client plain.ops plain.printer
    fixture.offline fixture.run "/"
    (fixture.syncOf "dir/" "s3://bucket/" false [(plain.src_a, false)])
    (plain.context false) []
  = (Some [{| errorpkg.Error := "no credentials";
              errorpkg.cancelation := false |}],
     [out.printError "sync dir/ s3://bucket/" "sync"
        {| errorpkg.Error := "no credentials";
           errorpkg.cancelation := false |}]).
Proof.
  exact (proj2
    (@Run_listing_failure plain.URL plain.Client plain.Client
       plain.ops plain.printer fixture.offline fixture.run "/"%char
       (fixture.syncOf "dir/" "s3://bucket/" false [(plain.src_a, false)])
       (plain.context false) []
       {| errorpkg.Error := "no credentials";
          errorpkg.cancelation := false |}
       (plain.local "dir/" "") (plain.s3 "bucket" "" "")
       [(plain.src_a, false)]
       eq_refl eq_refl eq_refl) eq_refl).
Defined.

Lemma Run_end_to_end_witness :
  Run "/"
    (fixture.syncOf "dir/" "s3://bucket/" false
       [(plain.src_a, false);
        (fixture.failed (plain.local "dir/x" "x") "denied", false)])
    (plain.context false) []
  = (None,
     [out.printError "sync dir/ s3://bucket/" "sync"
        {| errorpkg.Error := "denied"; errorpkg.cancelation := false |};
      out.Fprintln "s5cmd cp --raw=true dir/a.txt dir/a.txt";
      out.Close]).
Proof.
  exact (proj1
    (@Run_end_to_end plain.URL plain.Client plain.Client
       plain.ops plain.printer plain.externals fixture.run "/"%char
       (fixture.syncOf "dir/" "s3://bucket/" false
          [(plain.src_a, false);
           (fixture.failed (plain.local "dir/x" "x") "denied", false)])
       (plain.context false) []
       (plain.local "dir/" "") (plain.s3 "bucket" "" "")
       (plain.s3 "bucket" "*" "")
       [(plain.src_a, false);
        (fixture.failed (plain.local "dir/x" "x") "denied", false)]
       [(plain.src_a, false);
        (fixture.failed (plain.local "dir/x" "x") "denied", false)]
       eq_refl eq_refl eq_refl eq_refl eq_refl)).
Defined.

(** ** The filter and the diff together *)

Section FilteredDiff.

Context {U : Type} `{url.Ops U}.

Variable Separator : ascii.

(** X22.  The results hold locations of kept objects only: comparing the
    filtered listings, every source-only location and every
    destination-only location is the location of a listed object that is a
    file without error outside Glacier, and both halves of every pair are
    such objects. *)
Theorem compareObjects_only_eligible (source dest : list (storage.Object U)) :
  Forall
    (fun u => exists o, In o source /\ eligible o = true /\ storage.URL o = u)
    (onlySourceOf
       (compareObjects Separator (filter eligible source) (filter eligible dest)))
  /\ Forall
    (fun u => exists o, In o dest /\ eligible o = true /\ storage.URL o = u)
    (onlyDestOf
       (compareObjects Separator (filter eligible source) (filter eligible dest)))
  /\ Forall
    (fun p =>
       (In (ObjectPair.src p) source /\ eligible (ObjectPair.src p) = true)
       /\ (In (ObjectPair.dst p) dest /\ eligible (ObjectPair.dst p) = true))
    (commonOf
       (compareObjects Separator (filter eligible source) (filter eligible dest))).
Proof.
  unfold compareObjects.
  set (ss := sort.SliceStable lessRelative (filter eligible source)).
  set (ds := sort.SliceStable lessRelative (filter eligible dest)).
  assert (Hs : forall o, In o ss -> In o source /\ eligible o = true).
  { intros o Ho. apply filter_In.
    now apply (Permutation_in _ (SliceStable_lessRelative_perm _)). }
  assert (Hd : forall o, In o ds -> In o dest /\ eligible o = true).
  { intros o Ho. apply filter_In.
    now apply (Permutation_in _ (SliceStable_lessRelative_perm _)). }
  destruct (compareLoop_complete Separator ss ds) as [Cs Cd].
  pose proof (compareLoop_common Separator ss ds) as Cc.
  split; [|split]; apply Forall_forall.
  - intros u Hu.
    assert (Hin : In u (map (@storage.URL U) ss)).
    { apply (Permutation_in _ Cs), in_or_app. now left. }
    apply in_map_iff in Hin. destruct Hin as (o & Ho & Hf).
    exists o. destruct (Hs o Hf). tauto.
  - intros u Hu.
    assert (Hin : In u (map (@storage.URL U) ds)).
    { apply (Permutation_in _ Cd), in_or_app. now left. }
    apply in_map_iff in Hin. destruct Hin as (o & Ho & Hf).
    exists o. destruct (Hd o Hf). tauto.
  - intros p Hp. rewrite Forall_forall in Cc.
    destruct (Cc p Hp) as (P1 & P2 & _).
    split; [now apply Hs|now apply Hd].
Qed.

End FilteredDiff.

(** ** [Sync.Run] and the error channel *)

Section RunAndAggregatorFacts.

Context {U Client StorageOpts : Type}.
Context `{url.Ops U} `{storage.Printer U} `{Externals U Client StorageOpts}.
Context `{RunExternals U Client}.

Variable Separator : ascii.

(** The result of [Sync.Run] holds the errors of the channel that the loop
    has been through when the runner returns, and no later one. *)
Lemma runWithAggregator_handled (s : Sync.t StorageOpts) (c : cli.Context)
    (delivered : list errorpkg.error) (handled : nat) :
  Forall (fun e => tooManyOpenFiles e = false) (firstn handled delivered) ->
  runWithAggregator Separator s c delivered handled
  = Returned (out.value (Run Separator s c (firstn handled delivered))).
Proof.
  intros Hall. unfold runWithAggregator.
  now rewrite (drainErrors_no_exhaustion s [] Hall).
Qed.

End RunAndAggregatorFacts.

